(** * Credential store and bulk loader: a shallow embedding

    The development follows the two leaf components of the repository:
    - [auth.py]: the flat-file credential store ([hash_password],
      [verify_password], [user_exists], [register_user], [login_user]);
    - [data_layer.py]: the [DatabaseLayer] class ([run_sql],
      [insert_from_csv], [insert_from_json], [_row_factory], [_row_values]).

    Python text ([str]) is held in a Rocq [string] as its UTF-8 encoding, so
    that [str.encode('utf-8')] and [bytes.decode('utf-8')] are the conversions
    between [string] and [list byte].  Python exceptions are values of [exn];
    a call either returns ([Ok]) or raises ([Raise]), and code that mutates
    the process state is written in a state-and-exception monad. *)

From Stdlib Require Import ZArith Lia.
From Stdlib.Strings Require Import Ascii String Byte.
From stdpp Require Import gmap strings list.

(** ** Exceptions and the state-and-exception monad *)

Inductive exn : Type :=
| ValueError (msg : string)
| UnicodeDecodeError
| IndexError
| AssertionError
| SqliteError (msg : string).

Inductive result (A : Type) : Type :=
| Ok (a : A)
| Raise (e : exn).

Arguments Ok {A} a.
Arguments Raise {A} e.

Definition M (S A : Type) : Type := S → result A * S.

Definition ret {S A} (a : A) : M S A := λ s, (Ok a, s).

Definition raise {S A} (e : exn) : M S A := λ s, (Raise e, s).

Definition bind {S A B} (m : M S A) (k : A → M S B) : M S B :=
  λ s, match m s with
       | (Ok a, s') => k a s'
       | (Raise e, s') => (Raise e, s')
       end.

Definition lift {S A} (r : result A) : M S A := λ s, (r, s).

Definition modify {S} (f : S → S) : M S unit := λ s, (Ok tt, f s).

Declare Scope py_scope.
Delimit Scope py_scope with py.
Notation "'let*' x := m 'in' k" := (bind m (λ x, k))
  (at level 10, x pattern, m at level 100, k at level 200) : py_scope.
Notation "m ;; k" := (bind m (λ _, k))
  (at level 100, k at level 200, right associativity) : py_scope.

(** Pure exception-only computations. *)
Definition rbind {A B} (r : result A) (k : A → result B) : result B :=
  match r with
  | Ok a => k a
  | Raise e => Raise e
  end.



(** ** Python string primitives *)

Module Py.

(** [sep.join(parts)] *)
Fixpoint join (sep : string) (parts : list string) : string :=
  match parts with
  | [] => EmptyString
  | [p] => p
  | p :: rest => p +:+ sep +:+ join sep rest
  end.

(** [s.split(sep)] for a one-character separator: never empty. *)
Fixpoint split (sep : ascii) (s : string) : list string :=
  match s with
  | EmptyString => [EmptyString]
  | String a s' =>
      if decide (a = sep) then EmptyString :: split sep s'
      else match split sep s' with
           | x :: xs => String a x :: xs
           | [] => [String a EmptyString]
           end
  end.

(** [s.startswith(p)] *)
Fixpoint startswith (p s : string) : bool :=
  match p, s with
  | EmptyString, _ => true
  | String a p', String b s' => bool_decide (a = b) && startswith p' s'
  | String _ _, EmptyString => false
  end.

(** The remainder of [s] after the prefix [p], when [p] is a prefix. *)
Fixpoint strip_prefix (p s : string) : option string :=
  match p, s with
  | EmptyString, _ => Some s
  | String a p', String b s' =>
      if decide (a = b) then strip_prefix p' s' else None
  | String _ _, EmptyString => None
  end.

Definition chr (n : nat) : ascii := ascii_of_nat n.

(** The line terminator ["\n"]. *)
Definition newline : string := String (chr 10) EmptyString.

Definition str_of (codes : list nat) : string :=
  foldr (λ n s, String (chr n) s) EmptyString codes.

(** The characters for which [str.isspace] holds, each as its UTF-8
    encoding: U+0009..U+000D, U+001C..U+001F, U+0020, U+0085, U+00A0,
    U+1680, U+2000..U+200A, U+2028, U+2029, U+202F, U+205F, U+3000. *)
Definition whitespace : list string :=
  (str_of <$> [[9]; [10]; [11]; [12]; [13]; [28]; [29]; [30]; [31]; [32]]) ++
  (str_of <$> [[194; 133]; [194; 160]; [225; 154; 128]]) ++
  ((λ n, str_of [226; 128; n]) <$> seq 128 11) ++
  (str_of <$> [[226; 128; 168]; [226; 128; 169]; [226; 128; 175];
               [226; 129; 159]; [227; 128; 128]]).

(** One leading whitespace character removed, if there is one. *)
Definition drop_space (ws : list string) (s : string) : option string :=
  list_find (λ r, is_Some r) ((λ p, strip_prefix p s) <$> ws) ≫= snd.

Fixpoint lstrip_go (ws : list string) (fuel : nat) (s : string) : string :=
  match fuel with
  | O => s
  | S fuel' =>
      match drop_space ws s with
      | Some s' => lstrip_go ws fuel' s'
      | None => s
      end
  end.

(** [s.lstrip()] *)
Definition lstrip (s : string) : string :=
  lstrip_go whitespace (String.length s) s.

(** [s.rstrip()]: the same scan on the reversed text. *)
Definition rstrip (s : string) : string :=
  String.rev (lstrip_go (String.rev <$> whitespace) (String.length s)
                (String.rev s)).

(** [s.strip()] *)
Definition strip (s : string) : string := rstrip (lstrip s).

Definition lower_ascii (a : ascii) : ascii :=
  let n := nat_of_ascii a in
  if (65 <=? n)%nat && (n <=? 90)%nat then ascii_of_nat (n + 32) else a.

(** [s.lower()] on the ASCII letters.  Characters outside ASCII are kept:
    no such character lower-cases to a letter of the word [select], which
    is the only use the program makes of the result. *)
Fixpoint lower (s : string) : string :=
  match s with
  | EmptyString => EmptyString
  | String a s' => String (lower_ascii a) (lower s')
  end.

(** Text-mode reading translates ["\r\n"] and ["\r"] to ["\n"]. *)
Fixpoint universal_newlines (s : string) : string :=
  match s with
  | EmptyString => EmptyString
  | String a s' =>
      if decide (a = chr 13) then
        String (chr 10)
          match s' with
          | String b s'' =>
              if decide (b = chr 10) then universal_newlines s''
              else universal_newlines s'
          | EmptyString => EmptyString
          end
      else String a (universal_newlines s')
  end.

(** Lines with their terminator kept, as [for line in f] yields them. *)
Fixpoint keepends (s : string) : list string :=
  match s with
  | EmptyString => []
  | String a s' =>
      if decide (a = chr 10) then String a EmptyString :: keepends s'
      else match keepends s' with
           | x :: xs => String a x :: xs
           | [] => [String a EmptyString]
           end
  end.

Definition file_lines (content : string) : list string :=
  keepends (universal_newlines content).

(** Every character of [s] satisfies [P]. *)
Fixpoint all_chars (P : ascii → bool) (s : string) : bool :=
  match s with
  | EmptyString => true
  | String a s' => P a && all_chars P s'
  end.

(** A printable ASCII character other than the space. *)
Definition text_char (a : ascii) : bool :=
  let n := nat_of_ascii a in (33 <=? n)%nat && (n <=? 126)%nat.

(** A printable ASCII character other than the space and the comma. *)
Definition plain_char (a : ascii) : bool :=
  text_char a && negb (nat_of_ascii a =? 44)%nat.

(** No text of [ws] starts with a printable character. *)
Definition unprintable_heads (ws : list string) : bool :=
  forallb (λ p, match p with
                | String b _ => negb (text_char b)
                | EmptyString => false
                end) ws.

(** [text.encode('utf-8')] *)
Definition encode (s : string) : list byte := list_byte_of_string s.

Definition in_range (lo hi : N) (b : byte) : bool :=
  ((lo <=? Byte.to_N b) && (Byte.to_N b <=? hi))%N.

(** Well-formed UTF-8 (no overlong forms, no surrogates, at most U+10FFFF). *)
Fixpoint utf8_valid (bs : list byte) : bool :=
  match bs with
  | [] => true
  | b0 :: r0 =>
      if in_range 0 127 b0 then utf8_valid r0
      else
        match r0 with
        | [] => false
        | b1 :: r1 =>
            if in_range 194 223 b0 then in_range 128 191 b1 && utf8_valid r1
            else
              match r1 with
              | [] => false
              | b2 :: r2 =>
                  if in_range 224 239 b0 then
                    (if in_range 224 224 b0 then in_range 160 191 b1
                     else if in_range 237 237 b0 then in_range 128 159 b1
                     else in_range 128 191 b1)
                    && in_range 128 191 b2 && utf8_valid r2
                  else
                    match r2 with
                    | [] => false
                    | b3 :: r3 =>
                        in_range 240 244 b0
                        && (if in_range 240 240 b0 then in_range 144 191 b1
                            else if in_range 244 244 b0 then in_range 128 143 b1
                            else in_range 128 191 b1)
                        && in_range 128 191 b2 && in_range 128 191 b3
                        && utf8_valid r3
                    end
              end
        end
  end.

(** [data.decode('utf-8')] *)
Definition decode (bs : list byte) : result string :=
  if utf8_valid bs then Ok (string_of_list_byte bs) else Raise UnicodeDecodeError.

End Py.

(** ** The bcrypt library, as [auth.py] uses it

    [bcrypt] is not part of the repository: it is an interface here.  A hash
    is a setting (version, cost and the characters of the salt) followed by
    the characters of the digest.  [gensalt] draws a fresh setting from the
    system's entropy.  [read_setting] is what the library makes of the second
    argument of [hashpw], which is a salt or a whole hash: the setting it
    encodes, written the way the library writes it at the head of a hash, or
    nothing when the library finds no setting in it. *)

Class Bcrypt : Type := {
  entropy : Type;
  gensalt : entropy → list byte * entropy;
  read_setting : list byte → option (list byte);
  bcrypt_digest : list byte → list byte → list byte;
}.

#[global] Instance byte_eq_dec : EqDecision byte := Byte.byte_eq_dec.

Definition is_ascii (b : byte) : Prop := (Byte.to_N b < 128)%N.

(** The bytes of a setting or a digest: the library writes them in its
    radix-64 alphabet and ["$"], all of them printable ASCII characters other
    than the space and the comma. *)
Definition hash_byte (b : byte) : Prop :=
  Py.plain_char (ascii_of_byte b) = true.

(** What [auth.py] relies on: [gensalt] returns a setting of 29 bytes, which
    the library reads as it stands, from the salt and from a hash made
    with it. *)
Class BcryptContract (B : Bcrypt) : Prop := {
  gensalt_length : ∀ e, length (gensalt e).1 = 29%nat;
  gensalt_setting : ∀ e, read_setting (gensalt e).1 = Some (gensalt e).1;
  hash_setting : ∀ e pw,
    read_setting ((gensalt e).1 ++ bcrypt_digest pw (gensalt e).1)
    = Some (gensalt e).1;
  gensalt_chars : ∀ e, Forall hash_byte (gensalt e).1;
  digest_chars : ∀ pw s, Forall hash_byte (bcrypt_digest pw s);
}.

Section Auth.
Context {B : Bcrypt}.

(** [bcrypt.hashpw(password, salt)], as release 5.0.0 of the library does
    it (the repository pins no release; the ones before 5.0.0 cut a long
    password at 72 bytes instead).  A password of more than 72 bytes is
    refused.  Then the setting is read from [salt], and the hash is the
    setting followed by the digest of the password under it. *)
Definition hashpw (password salt : list byte) : result (list byte) :=
  if bool_decide (72 < length password)%nat then
    Raise (ValueError
      "password cannot be longer than 72 bytes, truncate manually if necessary (e.g. my_password[:72])")
  else
    match read_setting salt with
    | Some setting => Ok (setting ++ bcrypt_digest password setting)
    | None => Raise (ValueError "Invalid salt")
    end.

(** [bcrypt.checkpw(password, hashed_password)]: [hashpw] under the setting
    of [hashed_password], then the comparison with [hashed_password]. *)
Definition checkpw (password hashed_password : list byte) : result bool :=
  rbind (hashpw password hashed_password)
        (λ r, Ok (bool_decide (r = hashed_password))).

(** The process state [auth.py] acts on: the file [users.txt] ([None] when
    it does not exist), what was printed, and the entropy [gensalt] reads. *)
Record World : Type := {
  users_file : option string;
  stdout : list string;
  rng : entropy;
}.

Definition print (msg : string) : M World unit :=
  modify (λ w, {| users_file := users_file w;
                  stdout := stdout w ++ [msg];
                  rng := rng w |}).

(** [open(USER_DATA_FILE, "a")] followed by [f.write(text)]. *)
Definition append_users (text : string) : M World unit :=
  modify (λ w, {| users_file := Some (default EmptyString (users_file w) +:+ text);
                  stdout := stdout w;
                  rng := rng w |}).

Definition draw_salt : M World (list byte) :=
  λ w, let '(salt, e) := gensalt (rng w) in
       (Ok salt, {| users_file := users_file w; stdout := stdout w; rng := e |}).

Definition hash_password (plain_text_password : string) : M World string :=
  (let password_bytes := Py.encode plain_text_password in
   let* salt := draw_salt in
   let* hashed := lift (hashpw password_bytes salt) in
   lift (Py.decode hashed))%py.

Definition verify_password (plain_text_password hashed_password : string)
  : result bool :=
  let password_bytes := Py.encode plain_text_password in
  let hashed_bytes := Py.encode hashed_password in
  checkpw password_bytes hashed_bytes.

(** [a, b = parts]: unpacking into exactly two variables. *)
Definition unpack2 (parts : list string) : result (string * string) :=
  match parts with
  | [a; b] => Ok (a, b)
  | [] => Raise (ValueError "not enough values to unpack (expected 2, got 0)")
  | [_] => Raise (ValueError "not enough values to unpack (expected 2, got 1)")
  | _ => Raise (ValueError "too many values to unpack (expected 2)")
  end.

(** The loop of [user_exists] over the lines of the file. *)
Fixpoint user_exists_scan (username : string) (lines : list string)
  : result bool :=
  match lines with
  | [] => Ok false
  | line :: rest =>
      rbind (unpack2 (Py.split "," (Py.strip line)))
            (λ '(stored_username, _),
               if decide (stored_username = username) then Ok true
               else user_exists_scan username rest)
  end.

Definition user_exists (username : string) : M World bool :=
  λ w, match users_file w with
       | None => (Ok false, w)
       | Some content => (user_exists_scan username (Py.file_lines content), w)
       end.

Definition register_user (username password : string) : M World bool :=
  (let* found := user_exists username in
   if found then
     print (" Error: Username '" +:+ username +:+ "' already exists.");;
     ret false
   else
     let* hashed := hash_password password in
     append_users (username +:+ "," +:+ hashed +:+ Py.newline);;
     print (" Success: User '" +:+ username +:+ "' registered successfully!");;
     ret true)%py.

(** The loop of [login_user] over the lines of the file. *)
Fixpoint login_scan (username password : string) (lines : list string)
  : M World bool :=
  match lines with
  | [] => (print " Error: Username not found.";; ret false)%py
  | line :: rest =>
      (let* fields := lift (unpack2 (Py.split "," (Py.strip line))) in
       let '(stored_username, stored_hash) := fields in
       if decide (stored_username = username) then
         let* good := lift (verify_password password stored_hash) in
         if good then
           print (" Success: Welcome, " +:+ username +:+ "!");; ret true
         else
           print " Error: Invalid password.";; ret false
       else login_scan username password rest)%py
  end.

Definition login_user (username password : string) : M World bool :=
  λ w, match users_file w with
       | None => (print " No users registered yet.";; ret false)%py w
       | Some content => login_scan username password (Py.file_lines content) w
       end.

End Auth.

(** ** A reference instance of the bcrypt interface

    It has the shape of the library's output (setting, then digest, all in
    the radix-64 alphabet) and none of its cryptography; it knows the
    settings of version [2b] and cost 12 only, which are the ones [gensalt]
    draws.  It serves to run the credential store on concrete inputs. *)

Module RefBcrypt.

Definition alphabet : list byte :=
  Py.encode "./ABCDEFGHIJKLMNOPQRSTUVWXYZabcdefghijklmnopqrstuvwxyz0123456789".

Definition digit (n : N) : byte :=
  nth (N.to_nat (n mod 64)) alphabet "."%byte.

Fixpoint radix64 (len : nat) (n : N) : list byte :=
  match len with
  | O => []
  | S len' => digit n :: radix64 len' (n / 64)
  end.

Definition prefix : list byte := Py.encode "$2b$12$".

Definition checksum (bs : list byte) : N :=
  foldl (λ acc b, (acc * 257 + Byte.to_N b + 1) mod 18446744073709551629)%N 7%N bs.

#[global] Instance lib : Bcrypt := {|
  entropy := N;
  gensalt := λ e, (prefix ++ radix64 22 e, N.succ e);
  read_setting := λ s, if bool_decide (take 7 s = prefix)
                              && bool_decide (length (take 29 s) = 29%nat)
                       then Some (take 29 s) else None;
  bcrypt_digest := λ pw s, radix64 31 (checksum (pw ++ s));
|}.

End RefBcrypt.

(** ** Values, and the SQLite engine as [data_layer.py] uses it *)

(** Python values that reach the loader: what [json.load] builds, and the
    strings and [None]s of a CSV row.  A float is kept as its literal.  The
    items of a [PDict] are the key/value pairs in the order they were set. *)
#[warnings="-register-all"] Inductive pyval : Type :=
| PNone
| PBool (b : bool)
| PInt (n : Z)
| PFloat (literal : string)
| PStr (s : string)
| PList (elems : list pyval)
| PDict (items : list (string * pyval)).



(** [obj.get(key)]: the value set last under [key], [None] when there is none. *)
Definition dict_get (items : list (string * pyval)) (key : string) : pyval :=
  foldl (λ acc kv, if decide (kv.1 = key) then kv.2 else acc) PNone items.

(** [list(obj.keys())]: each key once, at the place it was first set. *)
Definition dict_keys (items : list (string * pyval)) : list string :=
  foldl (λ acc kv, if decide (kv.1 ∈ acc) then acc else acc ++ [kv.1]) [] items.

(** What a connection has been asked to do, in order. *)
Inductive event : Type :=
| EvExecute (sql : string) (params : list pyval)
| EvExecuteMany (sql : string) (batch : list (list pyval))
| EvCommit.

Record Connection : Type := {
  conn_path : string;
  conn_log : list event;
}.

(** The state of a cursor after [execute]: the names of the result columns
    ([col[0]] of each entry of [cursor.description]), the rows not yet
    fetched, and [cursor.rowcount]. *)
Record Cursor : Type := {
  description : list string;
  pending_rows : list (list pyval);
  rowcount : Z;
}.

(** [sqlite3] is not part of the repository: the engine decides, from the
    connection and the statement, what a statement yields, or rejects it
    with the message of the [sqlite3.Error] it raises.  For [executemany]
    it yields [cursor.rowcount], the number of rows the statement changed
    over all the parameter tuples; that is the number of tuples when every
    one of them is inserted, and less when the table passes one over. *)
Inductive reply (A : Type) : Type :=
| Accepted (a : A)
| Rejected (msg : string).

Arguments Accepted {A} a.
Arguments Rejected {A} msg.

Definition of_reply {A} (r : reply A) : result A :=
  match r with
  | Accepted a => Ok a
  | Rejected msg => Raise (SqliteError msg)
  end.

Class Sqlite : Type := {
  sqlite_execute : Connection → string → list pyval → reply Cursor;
  sqlite_executemany : Connection → string → list (list pyval) → reply Z;
}.

Record DatabaseLayer : Type := {
  db_path : string;
  conn : option Connection;
}.

Inductive sql_result : Type :=
| RowCount (n : Z)
| Rows (rows : list (gmap string pyval)).

Section DataLayer.
Context {E : Sqlite}.

Definition connect : M DatabaseLayer unit :=
  λ self, match conn self with
          | Some _ => (Ok tt, self)
          | None => (Ok tt, {| db_path := db_path self;
                               conn := Some {| conn_path := db_path self;
                                               conn_log := [] |} |})
          end.

Definition _ensure_conn : M DatabaseLayer unit :=
  λ self, match conn self with
          | Some _ => (Ok tt, self)
          | None => connect self
          end.

(** [assert self.conn is not None] *)
Definition the_conn : M DatabaseLayer Connection :=
  λ self, match conn self with
          | Some c => (Ok c, self)
          | None => (Raise AssertionError, self)
          end.

Definition log_event (ev : event) : M DatabaseLayer unit :=
  modify (λ self,
    {| db_path := db_path self;
       conn := (λ c, {| conn_path := conn_path c;
                        conn_log := conn_log c ++ [ev] |}) <$> conn self |}).

(** [cur.execute(sql, params)] *)
Definition cur_execute (sql : string) (params : list pyval)
  : M DatabaseLayer Cursor :=
  (let* c := the_conn in
   let* cur := lift (of_reply (sqlite_execute c sql params)) in
   log_event (EvExecute sql params);;
   ret cur)%py.

(** [cur.executemany(sql, batch)], giving the [cur.rowcount] that the
    loader reads next. *)
Definition cur_executemany (sql : string) (batch : list (list pyval))
  : M DatabaseLayer Z :=
  (let* c := the_conn in
   let* n := lift (of_reply (sqlite_executemany c sql batch)) in
   log_event (EvExecuteMany sql batch);;
   ret n)%py.

(** [self.conn.commit()] *)
Definition conn_commit : M DatabaseLayer unit := log_event EvCommit.

(** [enumerate(xs)] *)
Definition enumerate {A} (xs : list A) : list (nat * A) :=
  zip (seq 0 (length xs)) xs.

(** [{col[0]: row[idx] for idx, col in enumerate(cursor.description)}] *)
Definition _row_factory (description : list string) (row : list pyval)
  : result (gmap string pyval) :=
  foldl (λ acc ic,
           rbind acc (λ d,
             match row !! ic.1 with
             | Some v => Ok (<[ic.2 := v]> d)
             | None => Raise IndexError
             end))
        (Ok ∅) (enumerate description).

(** [cur.fetchall()] on a connection whose row factory is [_row_factory]. *)
Fixpoint fetchall (description : list string) (rows : list (list pyval))
  : result (list (gmap string pyval)) :=
  match rows with
  | [] => Ok []
  | row :: rest =>
      rbind (_row_factory description row) (λ d,
      rbind (fetchall description rest) (λ ds, Ok (d :: ds)))
  end.

Definition is_select (sql : string) : bool :=
  Py.startswith "select" (Py.lower (Py.strip sql)).

Definition run_sql (sql : string) (params : option (list pyval)) (fetch : bool)
  : M DatabaseLayer sql_result :=
  (_ensure_conn;;
   the_conn;;
   let* cur := match params with
               | Some (p :: ps) => cur_execute sql (p :: ps)
               | _ => cur_execute sql []
               end in
   if is_select sql && fetch then
     let* rows := lift (fetchall (description cur) (pending_rows cur)) in
     ret (Rows rows)
   else
     conn_commit;;
     ret (RowCount (rowcount cur)))%py.

(** [csv.DictReader]: the field names are the first row of the reader. *)
Definition DictReader_fieldnames (fh : list (list string))
  : option (list string) := head fh.

(** One row as the reader's dict: [dict(zip(fieldnames, row))], then [None]
    under every field name past the end of a short row.  (The surplus of a
    long row goes under the key [None], which is no column name.) *)
Definition DictReader_row (fieldnames row : list string) : gmap string pyval :=
  let d := foldl (λ d kv, <[kv.1 := PStr kv.2]> d) ∅ (zip fieldnames row) in
  foldl (λ d key, <[key := PNone]> d) d (drop (length row) fieldnames).

(** The rows the reader yields after the field names; blank rows are skipped. *)
Definition DictReader_rows (fh : list (list string))
  : list (gmap string pyval) :=
  match fh with
  | [] => []
  | fieldnames :: rest =>
      DictReader_row fieldnames <$> filter (λ row, row ≠ []) rest
  end.

Definition _row_values (row : gmap string pyval) (columns : list string)
  : list pyval :=
  (λ col, default PNone (row !! col)) <$> columns.

(** [f"INSERT INTO {table} ({', '.join(columns_to_use)}) VALUES ({placeholders})"] *)
Definition insert_sql (table : string) (columns_to_use : list string) : string :=
  let placeholders := Py.join "," (replicate (length columns_to_use) "?") in
  "INSERT INTO " +:+ table +:+ " (" +:+ Py.join ", " columns_to_use +:+
  ") VALUES (" +:+ placeholders +:+ ")".

(** The [for vals in row_iter] loop of [insert_from_csv], on the state
    ([batch], [inserted]). *)
Fixpoint csv_loop (sql : string) (batch_size : Z) (row_iter : list (list pyval))
    (batch : list (list pyval)) (inserted : Z)
  : M DatabaseLayer (list (list pyval) * Z) :=
  match row_iter with
  | [] => ret (batch, inserted)
  | vals :: rest =>
      let vals_tuple := vals in
      let batch := batch ++ [vals_tuple] in
      if (Z.of_nat (length batch) >=? batch_size)%Z then
        (let* n := cur_executemany sql batch in
         csv_loop sql batch_size rest [] (inserted + n)%Z)%py
      else csv_loop sql batch_size rest batch inserted
  end.

(** [if batch: cur.executemany(sql, batch); inserted += cur.rowcount] *)
Definition flush_rest (sql : string) (st : list (list pyval) * Z)
  : M DatabaseLayer Z :=
  match st.1 with
  | [] => ret st.2
  | _ :: _ => (let* n := cur_executemany sql st.1 in ret (st.2 + n)%Z)%py
  end.

(** The part of [insert_from_csv] both branches reach, once [columns_to_use]
    and [row_iter] are set: build the statement, run the loop, flush what is
    left, commit. *)
Definition csv_insert_rows (table : string) (columns_to_use : list string)
    (row_iter : list (list pyval)) (batch_size : Z) : M DatabaseLayer Z :=
  (let sql := insert_sql table columns_to_use in
   let* st := csv_loop sql batch_size row_iter [] 0%Z in
   let* inserted := flush_rest sql st in
   conn_commit;;
   ret inserted)%py.

(** [insert_from_csv]; [fh] is the file as [csv.reader] splits it into rows. *)
Definition insert_from_csv (table : string) (fh : list (list string))
    (columns : option (list string)) (has_header : bool) (batch_size : Z)
  : M DatabaseLayer Z :=
  (_ensure_conn;;
   the_conn;;
   if has_header && bool_decide (columns = None) then
     let columns_to_use := default [] (DictReader_fieldnames fh) in
     match columns_to_use with
     | [] => ret 0%Z
     | _ :: _ =>
         csv_insert_rows table columns_to_use
           ((λ row, _row_values row columns_to_use) <$> DictReader_rows fh)
           batch_size
     end
   else
     match columns with
     | None =>
         raise (ValueError "columns must be provided when CSV has no header")
     | Some cols => csv_insert_rows table cols ((λ row : list string, PStr <$> row) <$> fh) batch_size
     end)%py.

(** The [for obj in data_list] loop of [insert_from_json]. *)
Fixpoint json_loop (sql : string) (columns_to_use : list string)
    (batch_size : Z) (data_list : list pyval)
    (batch : list (list pyval)) (inserted : Z)
  : M DatabaseLayer (list (list pyval) * Z) :=
  match data_list with
  | [] => ret (batch, inserted)
  | obj :: rest =>
      match obj with
      | PDict items =>
          let vals := dict_get items <$> columns_to_use in
          let batch := batch ++ [vals] in
          if (Z.of_nat (length batch) >=? batch_size)%Z then
            (let* n := cur_executemany sql batch in
             json_loop sql columns_to_use batch_size rest [] (inserted + n)%Z)%py
          else json_loop sql columns_to_use batch_size rest batch inserted
      | _ => raise (ValueError "JSON array elements must be objects")
      end
  end.

(** [insert_from_json]; [data] is what [json.load] returns for the file. *)
Definition insert_from_json (table : string) (data : pyval)
    (columns : option (list string)) (batch_size : Z)
  : M DatabaseLayer Z :=
  (_ensure_conn;;
   the_conn;;
   let* data_list :=
     match data with
     | PDict _ => ret [data]
     | PList elems => ret elems
     | _ => raise (ValueError "JSON root must be an object or an array of objects")
     end in
   match data_list with
   | [] => ret 0%Z
   | first :: _ =>
       let* columns_to_use :=
         match columns with
         | None =>
             match first with
             | PDict items => ret (dict_keys items)
             | _ => raise (ValueError
                      "JSON array elements must be objects when columns are not provided")
             end
         | Some cols => ret cols
         end in
       let sql := insert_sql table columns_to_use in
       let* st := json_loop sql columns_to_use batch_size data_list [] 0%Z in
       let* inserted := flush_rest sql st in
       conn_commit;;
       ret inserted
   end)%py.

End DataLayer.

(** ** Batching, in the words of the specification

    "Accumulate into a RowBatch; whenever the batch reaches [batch_size],
    flush it as one multi-row insert, add the affected row count to a
    running total, and clear the batch.  After the source is exhausted,
    flush any remaining partial batch." *)

Fixpoint chunks_go {A} (fuel n : nat) (l : list A) : list (list A) :=
  match fuel, l with
  | O, _ | _, [] => []
  | S fuel', _ :: _ => take n l :: chunks_go fuel' n (drop n l)
  end.

(** [l] cut into consecutive batches of [n] rows, the last one possibly
    shorter (and never empty). *)
Definition chunks {A} (n : nat) (l : list A) : list (list A) :=
  chunks_go (length l) n l.

(** A batch is full from one row on, whatever [batch_size] says. *)
Definition batch_len (batch_size : Z) : nat := Z.to_nat (Z.max 1 batch_size).

Section Batching.
Context {E : Sqlite}.

(** One multi-row insert per batch, the row counts added up. *)
Fixpoint flush_batches (sql : string) (batches : list (list (list pyval)))
    (total : Z) : M DatabaseLayer Z :=
  match batches with
  | [] => ret total
  | batch :: rest =>
      (let* n := cur_executemany sql batch in
       flush_batches sql rest (total + n)%Z)%py
  end.

(** A bulk load: open the connection if need be, send the batches, commit
    once at the end, return the total. *)
Definition bulk_insert (sql : string) (batches : list (list (list pyval)))
  : M DatabaseLayer Z :=
  (_ensure_conn;;
   the_conn;;
   let* total := flush_batches sql batches 0%Z in
   conn_commit;;
   ret total)%py.

End Batching.



(** The log of the connection of [self]; empty while there is none. *)
Definition current_log (self : DatabaseLayer) : list event :=
  from_option conn_log [] (conn self).

(** The events a call added to the log of the connection. *)
Definition new_events (before after : DatabaseLayer) : list event :=
  drop (length (current_log before)) (current_log after).

(** The rows handed to the engine by the [executemany] events of a log. *)
Definition inserted_rows (evs : list event) : list (list pyval) :=
  evs ≫= (λ ev, match ev with EvExecuteMany _ batch => batch | _ => [] end).

(** The parameters [run_sql] binds: [params] when it is given and not
    empty, none otherwise. *)
Definition bound_params (params : option (list pyval)) : list pyval :=
  match params with
  | Some (p :: ps) => p :: ps
  | _ => []
  end.

(** [d] maps the field names to the values of [row]: each name to the value
    at its place (at its last place, should a name occur twice), and no
    other key. *)
Definition row_mapping (description : list string) (row : list pyval)
    (d : gmap string pyval) : Prop :=
  (∀ (j : nat) col, description !! j = Some col →
     (∀ j' : nat, (j < j')%nat → description !! j' ≠ Some col) →
     d !! col = row !! j)
  ∧ (∀ col, col ∉ description → d !! col = None).

(** ** A reference engine

    It accepts every statement and inserts every row it is sent; a read
    query yields a fixed two-row result set.  It serves to run the loader
    on concrete inputs. *)

Module RefSqlite.

Definition demo_cursor (sql : string) : Cursor :=
  if is_select sql then
    {| description := ["id"; "name"];
       pending_rows := [[PInt 1; PStr "a"]; [PInt 2; PStr "b"]];
       rowcount := -1 |}
  else {| description := []; pending_rows := []; rowcount := 1 |}.

#[global] Instance engine : Sqlite := {|
  sqlite_execute := λ _ sql _, Accepted (demo_cursor sql);
  sqlite_executemany := λ _ _ batch, Accepted (Z.of_nat (length batch));
|}.

Definition fresh : DatabaseLayer := {| db_path := ":memory:"; conn := None |}.

End RefSqlite.

(** ** Observations used in the statements *)

Section Observations.
Context {B : Bcrypt}.

(** The fields of one line of the store, as both scans read them. *)
Definition fields (line : string) : list string :=
  Py.split "," (Py.strip line).

(** The hash on record for [username]: the second field of the first line
    whose first field is [username]. *)
Fixpoint stored_hash_scan (username : string) (lines : list string)
  : option string :=
  match lines with
  | [] => None
  | line :: rest =>
      match fields line with
      | [a; b] =>
          if decide (a = username) then Some b
          else stored_hash_scan username rest
      | _ => None
      end
  end.

Definition stored_hash (username : string) (w : World) : option string :=
  users_file w ≫= λ content, stored_hash_scan username (Py.file_lines content).

(** The text of the store, as it is read, is empty or ends with a line
    terminator (no file counts as empty). *)
Definition terminated (w : World) : Prop :=
  let text := Py.universal_newlines (default EmptyString (users_file w)) in
  text = EmptyString ∨ ∃ t, text = t +:+ Py.newline.

(** A line the scan passes over: two fields, the first one not [username]. *)
Definition passed_over (username line : string) : Prop :=
  ∃ a b, fields line = [a; b] ∧ a ≠ username.

End Observations.

(** Worlds for the reference bcrypt instance. *)
Definition no_store : World (B := RefBcrypt.lib) :=
  {| users_file := None; stdout := []; rng := 0%N |}.

Definition store_of (content : string) : World (B := RefBcrypt.lib) :=
  {| users_file := Some content; stdout := []; rng := 0%N |}.

(** A password of 73 bytes. *)
Definition long_password : string :=
  string_of_list_byte (replicate 73 "a"%byte).

(** The store after [register_user("alice", "secret1")] on a fresh system. *)
Definition alice_registered : World (B := RefBcrypt.lib) :=
  (register_user "alice" "secret1" no_store).2.

(** A store in which the first record has two fields and the second one
    three, as the migration script of the repository expects them. *)
Definition mixed_store : World (B := RefBcrypt.lib) :=
  store_of (default EmptyString (users_file alice_registered)
            +:+ "bob,x,admin" +:+ Py.newline).

(** ** The rest of [DatabaseLayer]: wrappers and life cycle *)

(** The world after [print(msg)]. *)
Definition printed {B : Bcrypt} (w : World) (msg : string) : World :=
  {| users_file := users_file w; stdout := stdout w ++ [msg]; rng := rng w |}.

(** The usernames on record: the first field of each line. *)
Definition first_fields (lines : list string) : list string :=
  (λ line, default EmptyString (head (fields line))) <$> lines.

(** [create], [read], [update] and [delete] of [DatabaseLayer]. *)
Module Crud.
Section Wrappers.
Context {E : Sqlite}.





End Wrappers.
End Crud.

(** [self] after [_ensure_conn]. *)
Definition opened (self : DatabaseLayer) : DatabaseLayer :=
  match conn self with
  | Some _ => self
  | None => {| db_path := db_path self;
               conn := Some {| conn_path := db_path self; conn_log := [] |} |}
  end.










(** An engine with a constraint: it refuses a row that holds a [None]. *)
Module StrictSqlite.

Definition is_none (v : pyval) : bool :=
  match v with PNone => true | _ => false end.

Definition check {A} (rows : list (list pyval)) (a : A) : reply A :=
  if existsb (existsb is_none) rows then Rejected "NOT NULL constraint failed"
  else Accepted a.

Definition engine : Sqlite := {|
  sqlite_execute := λ _ sql params, check [params] (RefSqlite.demo_cursor sql);
  sqlite_executemany := λ _ _ batch, check batch (Z.of_nat (length batch));
|}.

End StrictSqlite.

(** An engine whose table passes over a row that holds a [None] (as a
    trigger that ignores the row does): the statement is accepted, and the
    row does not count. *)
Module SkippingSqlite.

Definition kept (batch : list (list pyval)) : Z :=
  Z.of_nat (length (filter (λ row, existsb StrictSqlite.is_none row = false) batch)).

Definition engine : Sqlite := {|
  sqlite_execute := λ _ sql _, Accepted (RefSqlite.demo_cursor sql);
  sqlite_executemany := λ _ _ batch, Accepted (kept batch);
|}.

End SkippingSqlite.



Section Traces.
Context {E : Sqlite}.




End Traces.

(** [obj] without the keys that are no column. *)
Definition restrict_keys (cols : list string) (obj : pyval) : pyval :=
  match obj with
  | PDict items => PDict (filter (λ kv, kv.1 ∈ cols) items)
  | _ => obj
  end.

(** ** The migration of the store, [db_operations.py] *)

(** The state of the script: its module-level connection and what it
    printed. *)
Record Script : Type := {
  script_conn : Connection;
  script_out : list string;
}.

Section Migrate.
Context {E : Sqlite}.

(** [cursor.execute(sql, params)] on the connection of the script. *)
Definition script_execute (sql : string) (params : list pyval) : M Script unit :=
  λ s, match sqlite_execute (script_conn s) sql params with
       | Accepted _ =>
           (Ok tt, {| script_conn :=
                        {| conn_path := conn_path (script_conn s);
                           conn_log := conn_log (script_conn s)
                                         ++ [EvExecute sql params] |};
                      script_out := script_out s |})
       | Rejected msg => (Raise (SqliteError msg), s)
       end.

Definition script_print (msg : string) : M Script unit :=
  modify (λ s, {| script_conn := script_conn s;
                  script_out := script_out s ++ [msg] |}).

(** The loop of [migrate_users] over the lines of the file. *)
Fixpoint migrate_loop (lines : list string) : M Script unit :=
  match lines with
  | [] => ret tt
  | line :: rest =>
      let parts := Py.split "," (Py.strip line) in
      match parts with
      | [username; password_hash; role] =>
          bind (script_execute "INSERT OR IGNORE INTO users VALUES (?, ?, ?)"
                  [PStr username; PStr password_hash; PStr role])
               (λ _, migrate_loop rest)
      | _ => migrate_loop rest
      end
  end.

(** [migrate_users(file_path)]; [content] is the text of the file. *)
Definition migrate_users (content : string) : M Script unit :=
  bind (migrate_loop (Py.file_lines content))
       (λ _, script_print "Migrated users.txt into users table").

End Migrate.

(** The parameter tuples [migrate_users] binds: one per line of three
    fields. *)
Definition migrated_rows (lines : list string) : list (list pyval) :=
  omap (λ line, match fields line with
                | [username; password_hash; role] =>
                    Some [PStr username; PStr password_hash; PStr role]
                | _ => None
                end) lines.

(** * The credential store *)

Section AuthFacts.
Context {B : Bcrypt}.

Lemma utf8_valid_ascii (bs : list byte) :
  Forall is_ascii bs → Py.utf8_valid bs = true.
Proof.
  induction 1 as [|b bs Hb _ IH]; [done|].
  cbn [Py.utf8_valid].
  assert (Py.in_range 0 127 b = true) as ->; [|done].
  unfold Py.in_range, is_ascii in *.
  apply andb_true_intro; split; [apply N.leb_le | apply N.leb_le]; lia.
Qed.

Lemma decode_ascii (bs : list byte) :
  Forall is_ascii bs → Py.decode bs = Ok (string_of_list_byte bs).
Proof. intros H. unfold Py.decode. by rewrite utf8_valid_ascii. Qed.

Lemma encode_of_bytes (bs : list byte) :
  Py.encode (string_of_list_byte bs) = bs.
Proof. apply list_byte_of_string_of_list_byte. Qed.

Lemma hash_byte_ascii (b : byte) : hash_byte b → is_ascii b.
Proof.
  unfold hash_byte, is_ascii.
  destruct b; first [ intros _; exact eq_refl | intros H; discriminate H ].
Qed.

Context {HB : BcryptContract B}.

Lemma hash_bytes (pw : list byte) (e : entropy) :
  Forall hash_byte ((gensalt e).1 ++ bcrypt_digest pw (gensalt e).1).
Proof. apply Forall_app; split; [apply gensalt_chars | apply digest_chars]. Qed.

(** The state after [gensalt]. *)
Lemma draw_salt_run (w : World) :
  draw_salt w = (Ok (gensalt (rng w)).1,
                 {| users_file := users_file w; stdout := stdout w;
                    rng := (gensalt (rng w)).2 |}).
Proof. unfold draw_salt. by destruct (gensalt (rng w)). Qed.

(** What one call of [hash_password] does with a password the library
    takes: it draws a setting and returns the text of setting and digest. *)
Lemma hash_password_run (P : string) (w : World) :
  (length (Py.encode P) ≤ 72)%nat →
  let salt := (gensalt (rng w)).1 in
  hash_password P w =
    (Ok (string_of_list_byte (salt ++ bcrypt_digest (Py.encode P) salt)),
     {| users_file := users_file w; stdout := stdout w;
        rng := (gensalt (rng w)).2 |}).
Proof.
  intros Hlen salt. unfold hash_password, bind, lift.
  rewrite draw_salt_run. fold salt. unfold hashpw.
  rewrite bool_decide_eq_false_2 by lia.
  unfold salt. rewrite gensalt_setting.
  rewrite decode_ascii; [done|].
  eapply Forall_impl; [apply hash_bytes | apply hash_byte_ascii].
Qed.

(** With a longer password, the salt is drawn and the library refuses. *)
Lemma hash_password_long (P : string) (w : World) :
  (72 < length (Py.encode P))%nat →
  hash_password P w =
    (Raise (ValueError
       "password cannot be longer than 72 bytes, truncate manually if necessary (e.g. my_password[:72])"),
     {| users_file := users_file w; stdout := stdout w;
        rng := (gensalt (rng w)).2 |}).
Proof.
  intros Hlen. unfold hash_password, bind, lift.
  rewrite draw_salt_run. unfold hashpw.
  by rewrite bool_decide_eq_true_2.
Qed.

(** A hash made with a drawn setting is found again by [checkpw]. *)
Lemma checkpw_hashed (pw : list byte) (e : entropy) :
  (length pw ≤ 72)%nat →
  checkpw pw ((gensalt e).1 ++ bcrypt_digest pw (gensalt e).1) = Ok true.
Proof.
  intros Hlen. unfold checkpw, hashpw.
  rewrite bool_decide_eq_false_2 by lia.
  rewrite hash_setting. simpl. by rewrite bool_decide_eq_true_2.
Qed.

(** Whatever [hash_password] returned for a password verifies it. *)
Lemma hash_password_verifies (P h : string) (w : World) :
  (hash_password P w).1 = Ok h → verify_password P h = Ok true.
Proof.
  destruct (decide (length (Py.encode P) ≤ 72)%nat) as [Hlen | Hlen].
  - rewrite hash_password_run by done. simpl. intros [= <-].
    unfold verify_password. rewrite encode_of_bytes. by apply checkpw_hashed.
  - rewrite hash_password_long by lia. done.
Qed.

(** C1, as the code has it.  For every password [P] of at most 72 bytes in
    UTF-8, [hash_password(P)] returns a hash and
    [verify_password(P, hash_password(P))] is [True].  For a longer [P] the
    library refuses the password: [hash_password(P)] raises [ValueError],
    so that there is no hash to verify. *)
Theorem verify_hash_password (P : string) (w : World) :
  ((length (Py.encode P) ≤ 72)%nat →
   ∃ h w', hash_password P w = (Ok h, w') ∧ verify_password P h = Ok true)
  ∧ ((72 < length (Py.encode P))%nat →
     ∃ msg, (hash_password P w).1 = Raise (ValueError msg)).
Proof.
  split; intros Hlen.
  - eexists _, _. split; [by apply hash_password_run|].
    unfold verify_password, checkpw, hashpw. rewrite encode_of_bytes.
    rewrite bool_decide_eq_false_2 by lia.
    rewrite hash_setting. simpl. by rewrite bool_decide_eq_true_2.
  - rewrite hash_password_long by done. simpl. eauto.
Qed.

(** C2, as the code has it.  [hash_password] is salted: for every plaintext
    [P] of at most 72 bytes in UTF-8, two calls that draw different salts
    return different hash strings. *)
Theorem hash_password_salted (P : string) (w1 w2 : World) :
  (length (Py.encode P) ≤ 72)%nat →
  (gensalt (rng w1)).1 ≠ (gensalt (rng w2)).1 →
  ∃ h1 h2, (hash_password P w1).1 = Ok h1 ∧ (hash_password P w2).1 = Ok h2
           ∧ h1 ≠ h2.
Proof.
  intros Hlen Hsalt. eexists _, _.
  rewrite !hash_password_run by done. simpl. split_and!; [done..|].
  intros Heq. apply (f_equal Py.encode) in Heq.
  rewrite !encode_of_bytes in Heq.
  apply app_inj_1 in Heq as [Heq _]; [done|].
  by rewrite !gensalt_length.
Qed.

End AuthFacts.

(** The reference instance meets the contract of the library. *)
Module RefBcryptFacts.
Import RefBcrypt.

Lemma hash_bytes_check (bs : list byte) :
  forallb (λ b, Py.plain_char (ascii_of_byte b)) bs = true → Forall hash_byte bs.
Proof.
  rewrite forallb_forall, Forall_forall. intros H b Hb.
  apply H. by apply list_elem_of_In.
Qed.

Lemma alphabet_chars : Forall hash_byte alphabet.
Proof. apply hash_bytes_check. by vm_compute. Qed.

Lemma digit_char (n : N) : hash_byte (digit n).
Proof.
  unfold digit.
  generalize (N.to_nat (n mod 64)). intros k.
  destruct (nth_in_or_default k alphabet "."%byte) as [Hin | ->].
  - pose proof alphabet_chars as H. rewrite List.Forall_forall in H. auto.
  - by vm_compute.
Qed.

Lemma radix64_length (len : nat) (n : N) : length (radix64 len n) = len.
Proof. revert n. induction len as [|len IH]; intros n; simpl; [done|]. by rewrite IH. Qed.

Lemma radix64_chars (len : nat) (n : N) : Forall hash_byte (radix64 len n).
Proof.
  revert n. induction len as [|len IH]; intros n; simpl; constructor;
    [apply digit_char | apply IH].
Qed.

Lemma prefix_chars : Forall hash_byte prefix.
Proof. apply hash_bytes_check. by vm_compute. Qed.

Lemma read_setting_head (salt rest : list byte) :
  length salt = 22%nat →
  read_setting ((prefix ++ salt) ++ rest) = Some (prefix ++ salt).
Proof.
  intros Hlen. cbn [read_setting lib].
  assert (take 29 ((prefix ++ salt) ++ rest) = prefix ++ salt) as ->.
  { apply take_app_length'. rewrite length_app, Hlen. reflexivity. }
  rewrite <- app_assoc.
  rewrite (bool_decide_eq_true_2 (take 7 (prefix ++ salt ++ rest) = prefix))
    by reflexivity.
  rewrite bool_decide_eq_true_2; [done|].
  rewrite length_app, Hlen. reflexivity.
Qed.

#[global] Instance contract : BcryptContract lib.
Proof.
  split.
  - intros e. change (length (prefix ++ radix64 22 e) = 29%nat).
    rewrite length_app, radix64_length. reflexivity.
  - intros e. pose proof (read_setting_head (radix64 22 e) []) as H.
    rewrite app_nil_r in H. apply H, radix64_length.
  - intros e pw.
    exact (read_setting_head (radix64 22 e) _ (radix64_length 22 e)).
  - intros e. change (Forall hash_byte (prefix ++ radix64 22 e)).
    apply Forall_app. split; [apply prefix_chars | apply radix64_chars].
  - intros pw s. apply radix64_chars.
Qed.

End RefBcryptFacts.

Lemma verify_hash_password_witness :
  ∃ h w', hash_password "secret1" no_store = (Ok h, w')
          ∧ verify_password "secret1" h = Ok true.
Proof.
  destruct (verify_hash_password (HB := RefBcryptFacts.contract)
              "secret1" no_store) as [H _].
  apply H. vm_compute. lia.
Defined.

(** C1, as stated, fails: a password of 73 bytes is not hashed. *)
Lemma long_password_not_hashed :
  (hash_password long_password no_store).1
  = Raise (ValueError
      "password cannot be longer than 72 bytes, truncate manually if necessary (e.g. my_password[:72])")
  ∧ ¬ ∃ h, (hash_password long_password no_store).1 = Ok h
           ∧ verify_password long_password h = Ok true.
Proof.
  assert ((hash_password long_password no_store).1
          = Raise (ValueError
              "password cannot be longer than 72 bytes, truncate manually if necessary (e.g. my_password[:72])"))
    as H by (by vm_compute).
  split; [done|]. intros (h & Hh & _). by rewrite H in Hh.
Qed.

Lemma hash_password_salted_witness :
  ∃ h1 h2, (hash_password "secret1" no_store).1 = Ok h1
           ∧ (hash_password "secret1" alice_registered).1 = Ok h2
           ∧ h1 ≠ h2.
Proof.
  apply (hash_password_salted (HB := RefBcryptFacts.contract)).
  - vm_compute. lia.
  - vm_compute. discriminate.
Defined.

(** C2, as stated, fails: for a password of 73 bytes two calls that draw
    different salts end alike, without a hash. *)
Lemma long_password_same_outcome :
  (gensalt (rng no_store)).1 ≠ (gensalt (rng alice_registered)).1
  ∧ (hash_password long_password no_store).1
    = (hash_password long_password alice_registered).1
  ∧ ¬ ∃ h, (hash_password long_password no_store).1 = Ok h.
Proof.
  split_and!.
  - vm_compute. discriminate.
  - by vm_compute.
  - intros [h Hh]. vm_compute in Hh. discriminate Hh.
Qed.

Section StoreFacts.
Context {B : Bcrypt}.

Lemma user_exists_state (u : string) (w : World) : (user_exists u w).2 = w.
Proof. unfold user_exists. by destruct (users_file w). Qed.

Lemma user_exists_scan_stored (u : string) (lines : list string) :
  user_exists_scan u lines = Ok true → is_Some (stored_hash_scan u lines).
Proof.
  induction lines as [|line rest IH]; simpl; [done|].
  unfold fields. destruct (Py.split "," (Py.strip line)) as [|a [|b [|c l]]];
    simpl; try done.
  case_decide; eauto.
Qed.

(** Once the record of [username] is found, [login_user] is decided by
    [verify_password] on the hash of that record. *)
Lemma login_scan_stored (u p h : string) (lines : list string) (w : World) :
  stored_hash_scan u lines = Some h →
  (login_scan u p lines w).1 =
    match verify_password p h with
    | Ok good => Ok good
    | Raise e => Raise e
    end.
Proof.
  induction lines as [|line rest IH]; simpl; [done|].
  unfold fields, bind, lift.
  destruct (Py.split "," (Py.strip line)) as [|a [|b [|c l]]]; simpl; try done.
  case_decide; [|done].
  intros [= ->]. by destruct (verify_password p h) as [[]|].
Qed.

(** A call of [register_user] for a username that [user_exists] finds:
    it prints the error and changes nothing else. *)
Lemma register_present_run (u p : string) (w : World) :
  (user_exists u w).1 = Ok true →
  register_user u p w =
    (Ok false,
     {| users_file := users_file w;
        stdout := stdout w ++ [" Error: Username '" +:+ u +:+ "' already exists."];
        rng := rng w |}).
Proof.
  intros Hex. unfold register_user, bind.
  pose proof (user_exists_state u w) as Hst.
  destruct (user_exists u w) as [r w0]. simpl in Hex, Hst. by subst r w0.
Qed.

(** A password that the hash on record verifies logs in. *)
Lemma login_stored (u p h : string) (w : World) :
  stored_hash u w = Some h → verify_password p h = Ok true →
  (login_user u p w).1 = Ok true.
Proof.
  unfold stored_hash, login_user.
  destruct (users_file w) as [content|]; simpl; [|done].
  intros Hh Hv. rewrite (login_scan_stored u p h) by done. by rewrite Hv.
Qed.

(** The scan finds the first record of [u]: every line before it has two
    fields and belongs to another user. *)
Lemma scan_finds_record (u h line : string) (before after : list string) :
  Forall (passed_over u) before →
  fields line = [u; h] →
  user_exists_scan u (before ++ line :: after) = Ok true
  ∧ stored_hash_scan u (before ++ line :: after) = Some h.
Proof.
  intros Hbefore Hline.
  induction Hbefore as [|l rest (a & b & Hf & Hne) _ IH]; simpl.
  - rewrite Hline. unfold fields in Hline. rewrite Hline. simpl.
    by rewrite !decide_True.
  - rewrite Hf. unfold fields in Hf. rewrite Hf. simpl.
    by rewrite !decide_False.
Qed.

Context {HB : BcryptContract B}.

(** C3, as the code has it.  Let the store hold a record of [u] that the
    scan finds: a line that splits, once stripped, into [u] and a hash,
    after lines of two fields that belong to other users.  Then a further
    [register_user] call with [u] returns [False] (AlreadyExists), appends
    nothing to the file and draws no salt; the hash on record is
    unchanged, and when it is the hash [hash_password] returned for the
    original password, that password still logs in. *)
Theorem register_existing_user
    (u p p0 h content line : string) (before after : list string)
    (w w0 : World) :
  users_file w = Some content →
  Py.file_lines content = before ++ line :: after →
  Forall (passed_over u) before →
  fields line = [u; h] →
  (hash_password p0 w0).1 = Ok h →
  ∃ w', register_user u p w = (Ok false, w')
        ∧ users_file w' = users_file w
        ∧ rng w' = rng w
        ∧ stdout w' = stdout w ++ [" Error: Username '" +:+ u +:+ "' already exists."]
        ∧ stored_hash u w = Some h
        ∧ stored_hash u w' = Some h
        ∧ (login_user u p0 w').1 = Ok true.
Proof.
  intros Hfile Hlines Hbefore Hline Hhash.
  destruct (scan_finds_record u h line before after Hbefore Hline)
    as [Hscan Hstored].
  assert ((user_exists u w).1 = Ok true) as Hex.
  { unfold user_exists. by rewrite Hfile, Hlines. }
  assert (stored_hash u w = Some h) as Hh.
  { unfold stored_hash. rewrite Hfile. simpl. by rewrite Hlines. }
  eexists. split; [by apply register_present_run|].
  split_and!; try done.
  apply (login_stored u p0 h); [done|].
  by apply (hash_password_verifies p0 h w0).
Qed.

(** C7, as the code has it.  Without a store file [login_user] prints
    " No users registered yet." and returns [False]; with a store whose
    lines all belong to other users it prints " Error: Username not found."
    and returns [False] as well: the return value is the same, and the two
    outcomes differ in the printed message only. *)
Theorem login_user_no_store (u p content : string) (w0 w1 : World) :
  users_file w0 = None →
  users_file w1 = Some content →
  Forall (passed_over u) (Py.file_lines content) →
  ∃ w0' w1',
    login_user u p w0 = (Ok false, w0')
    ∧ login_user u p w1 = (Ok false, w1')
    ∧ stdout w0' = stdout w0 ++ [" No users registered yet."]
    ∧ stdout w1' = stdout w1 ++ [" Error: Username not found."]
    ∧ " No users registered yet." ≠ " Error: Username not found.".
Proof.
  intros H0 H1 Hlines. unfold login_user. rewrite H0, H1.
  assert (∀ lines w, Forall (passed_over u) lines →
            login_scan u p lines w =
              (Ok false, {| users_file := users_file w;
                            stdout := stdout w ++ [" Error: Username not found."];
                            rng := rng w |})) as Hscan.
  { clear. intros lines w. induction 1 as [|line rest (a & b & Hf & Hne) _ IH];
      simpl; [done|].
    unfold bind, lift. unfold fields in Hf. rewrite Hf. simpl.
    by rewrite decide_False. }
  rewrite Hscan by done.
  eexists _, _. split_and!; try reflexivity. discriminate.
Qed.

(** C10, as the code has it.  Both scans raise [ValueError] as soon as they
    reach a line that does not split into exactly two fields, that is, when
    every line before it has two fields and belongs to another user. *)
Theorem scan_reaches_malformed_line
    (u p content bad : string) (before after : list string) (w : World) :
  users_file w = Some content →
  Py.file_lines content = before ++ bad :: after →
  length (fields bad) ≠ 2%nat →
  Forall (passed_over u) before →
  (∃ msg, (user_exists u w).1 = Raise (ValueError msg))
  ∧ (∃ msg, (login_user u p w).1 = Raise (ValueError msg)).
Proof.
  intros Hfile Hlines Hbad Hbefore.
  unfold user_exists, login_user. rewrite Hfile, Hlines. clear Hfile Hlines.
  induction Hbefore as [|line rest (a & b & Hf & Hne) _ IH]; simpl.
  - unfold bind, lift, fields in *.
    destruct (Py.split "," (Py.strip bad)) as [|a [|b [|c l]]]; simpl in *;
      try done; eauto.
  - unfold bind, lift, fields in *. rewrite Hf. simpl.
    destruct (decide (a = u)); [done | exact IH].
Qed.

(** The converse for [user_exists]: it raises only at such a line. *)
Lemma user_exists_scan_raises (u : string) (lines : list string) (e : exn) :
  user_exists_scan u lines = Raise e →
  ∃ before bad after, lines = before ++ bad :: after
                      ∧ length (fields bad) ≠ 2%nat
                      ∧ Forall (passed_over u) before.
Proof.
  induction lines as [|line rest IH]; simpl; [done|].
  destruct (fields line) as [|a [|b [|c l]]] eqn:Hf; unfold fields in Hf;
    rewrite Hf; simpl; intros Hr;
    try (exists [], line, rest; unfold fields; rewrite Hf; by split_and!).
  case_decide; [done|].
  destruct (IH Hr) as (before & bad & after & -> & Hbad & Hpre).
  exists (line :: before), bad, after. split_and!; [done..|].
  constructor; [|done]. exists a, b. by unfold fields.
Qed.

End StoreFacts.

(** The scenario of the specification: ["alice"] registered with
    ["secret1"], then registered again with ["other"]. *)
Lemma register_existing_user_witness :
  ∃ w', register_user "alice" "other" alice_registered = (Ok false, w')
        ∧ users_file w' = users_file alice_registered
        ∧ stored_hash "alice" w' = stored_hash "alice" alice_registered
        ∧ (login_user "alice" "secret1" w').1 = Ok true.
Proof.
  destruct (register_existing_user (HB := RefBcryptFacts.contract)
              "alice" "other" "secret1"
              (default EmptyString (stored_hash "alice" alice_registered))
              (default EmptyString (users_file alice_registered))
              (default EmptyString (users_file alice_registered))
              [] [] alice_registered no_store)
    as (w' & Hr & Hf & _ & _ & Hh & Hh' & Hlogin);
    [by vm_compute | by vm_compute | constructor | by vm_compute | by vm_compute |].
  exists w'. split_and!; [done | done | by rewrite Hh, Hh' | done].
Defined.

(** C3, as stated, fails: a username that [line.strip()] alters is on
    record and not found.  [" alice"] is registered, the file holds its
    record, and a second registration succeeds and appends another one. *)
Lemma register_leading_space_twice :
  let w1 := (register_user " alice" "secret1" no_store).2 in
  let w2 := (register_user " alice" "other" w1).2 in
  (register_user " alice" "secret1" no_store).1 = Ok true
  ∧ Py.startswith " alice," (default EmptyString (users_file w1)) = true
  ∧ (register_user " alice" "other" w1).1 = Ok true
  ∧ length (Py.file_lines (default EmptyString (users_file w1))) = 1%nat
  ∧ length (Py.file_lines (default EmptyString (users_file w2))) = 2%nat.
Proof. split_and!; by vm_compute. Qed.

Lemma login_user_no_store_witness :
  ∃ w0' w1',
    login_user "bob" "x" no_store = (Ok false, w0')
    ∧ login_user "bob" "x" alice_registered = (Ok false, w1')
    ∧ stdout w0' = stdout no_store ++ [" No users registered yet."]
    ∧ stdout w1' = stdout alice_registered ++ [" Error: Username not found."]
    ∧ " No users registered yet." ≠ " Error: Username not found.".
Proof.
  apply (login_user_no_store "bob" "x"
           (default EmptyString (users_file alice_registered)) no_store alice_registered).
  - reflexivity.
  - vm_compute. reflexivity.
  - vm_compute. repeat constructor.
    eexists _, _. split; [reflexivity | discriminate].
Defined.

(** C7, as stated, fails: what [login_user] returns without a store is what
    it returns when the store exists and the user is absent. *)
Lemma login_user_same_return :
  (login_user "bob" "x" no_store).1 = Ok false
  ∧ (login_user "bob" "x" alice_registered).1 = Ok false
  ∧ ¬ (login_user "bob" "x" no_store).1 ≠ (login_user "bob" "x" alice_registered).1.
Proof. split_and!; [by vm_compute..|]. intros H. apply H. by vm_compute. Qed.

Lemma scan_reaches_malformed_line_witness :
  (∃ msg, (user_exists "bob" mixed_store).1 = Raise (ValueError msg))
  ∧ (∃ msg, (login_user "bob" "x" mixed_store).1 = Raise (ValueError msg)).
Proof.
  apply (scan_reaches_malformed_line "bob" "x"
           (default EmptyString (users_file mixed_store))
           ("bob,x,admin" +:+ Py.newline)
           [default EmptyString (users_file alice_registered)] []).
  - reflexivity.
  - vm_compute. reflexivity.
  - vm_compute. lia.
  - vm_compute. repeat constructor.
    eexists _, _. split; [reflexivity | discriminate].
Defined.

(** C10, as stated, fails: the second line of [mixed_store] has three
    fields, and both scans return at the first line without raising. *)
Lemma three_field_line_not_reached :
  Py.file_lines (default EmptyString (users_file mixed_store)) !! 1%nat
    = Some ("bob,x,admin" +:+ Py.newline)
  ∧ fields ("bob,x,admin" +:+ Py.newline) = ["bob"; "x"; "admin"]
  ∧ (user_exists "alice" mixed_store).1 = Ok true
  ∧ (login_user "alice" "secret1" mixed_store).1 = Ok true.
Proof. split_and!; by vm_compute. Qed.

(** * The bulk loader *)

Section ChunkFacts.
Context {A : Type}.
Implicit Types (l : list A) (n : nat).

Lemma chunks_go_fuel (n fuel1 fuel2 : nat) l :
  (1 ≤ n)%nat → (length l ≤ fuel1)%nat → (length l ≤ fuel2)%nat →
  chunks_go fuel1 n l = chunks_go fuel2 n l.
Proof.
  intros Hn. revert fuel2 l.
  induction fuel1 as [|fuel1 IH]; intros fuel2 l H1 H2.
  - destruct l; simpl in *; [by destruct fuel2 | lia].
  - destruct l as [|x l]; [by destruct fuel2|].
    destruct fuel2 as [|fuel2]; simpl in *; [lia|].
    f_equal. apply IH; rewrite length_drop; simpl; lia.
Qed.

Lemma chunks_nil n : chunks n (@nil A) = [].
Proof. done. Qed.

Lemma chunks_cons n l :
  (1 ≤ n)%nat → l ≠ [] → chunks n l = take n l :: chunks n (drop n l).
Proof.
  intros Hn Hl. unfold chunks. destruct l as [|x l]; [done|].
  simpl. f_equal. apply chunks_go_fuel; [done| |done].
  rewrite length_drop. simpl. lia.
Qed.

(** A full batch at the head is the first chunk. *)
Lemma chunks_app_full n (batch l : list A) :
  (1 ≤ n)%nat → length batch = n → chunks n (batch ++ l) = batch :: chunks n l.
Proof.
  intros Hn Hlen. rewrite chunks_cons; [|done|].
  - by rewrite take_app_length', drop_app_length'.
  - destruct batch; simpl in *; [lia | done].
Qed.

(** A non-empty list that fits in one batch is its only chunk. *)
Lemma chunks_short n (batch : list A) :
  batch ≠ [] → (length batch ≤ n)%nat → chunks n batch = [batch].
Proof.
  intros Hne Hlen. rewrite chunks_cons; [|destruct batch; simpl in *; [done|lia]|done].
  by rewrite take_ge, drop_ge by done.
Qed.




End ChunkFacts.

Section LoaderFacts.
Context {E : Sqlite}.

Lemma bind_assoc {S A B C} (m : M S A) (k : A → M S B) (k' : B → M S C) (s : S) :
  bind (bind m k) k' s = bind m (λ a, bind (k a) k') s.
Proof. unfold bind. by destruct (m s) as [[a|e] s']. Qed.

Lemma bind_cong {S A B} (m : M S A) (k1 k2 : A → M S B) (s : S) :
  (∀ a s', k1 a s' = k2 a s') → bind m k1 s = bind m k2 s.
Proof. intros Hk. unfold bind. destruct (m s) as [[a|e] s']; [apply Hk | done]. Qed.

Lemma batch_len_pos (batch_size : Z) : (1 ≤ batch_len batch_size)%nat.
Proof. unfold batch_len. lia. Qed.


Lemma batch_full (batch_size : Z) (k : nat) :
  (1 ≤ k ≤ batch_len batch_size)%nat →
  (Z.of_nat k >=? batch_size)%Z = true → k = batch_len batch_size.
Proof. unfold batch_len. intros Hk Hge%Z.geb_le. lia. Qed.

Lemma batch_not_full (batch_size : Z) (k : nat) :
  (Z.of_nat k >=? batch_size)%Z = false → (k < batch_len batch_size)%nat.
Proof. unfold batch_len. rewrite Z.geb_leb. intros Hlt%Z.leb_gt. lia. Qed.

(** The loop and the flush that follows it send the rows in batches of
    [batch_len batch_size], whatever the engine answers. *)
Lemma csv_loop_flush (sql : string) (batch_size : Z)
    (rows batch : list (list pyval)) (inserted : Z) (db : DatabaseLayer) :
  (length batch < batch_len batch_size)%nat →
  bind (csv_loop sql batch_size rows batch inserted) (flush_rest sql) db =
  flush_batches sql (chunks (batch_len batch_size) (batch ++ rows)) inserted db.
Proof.
  revert batch inserted db.
  induction rows as [|vals rest IH]; intros batch inserted db Hlen.
  - rewrite app_nil_r. simpl. unfold bind at 1, ret at 1, flush_rest. simpl.
    destruct batch as [|b batch]; [done|].
    rewrite chunks_short by (done || lia). done.
  - simpl. replace (batch ++ vals :: rest) with ((batch ++ [vals]) ++ rest)
      by (by rewrite <- app_assoc).
    assert (length (batch ++ [vals]) = S (length batch)) as Hlen'
      by (rewrite length_app; simpl; lia).
    destruct (Z.of_nat (length (batch ++ [vals])) >=? batch_size)%Z eqn:Hfull.
    + apply batch_full in Hfull; [|lia].
      rewrite chunks_app_full by (done || apply batch_len_pos).
      rewrite bind_assoc. simpl. apply bind_cong. intros n db'.
      apply (IH [] _ db'). simpl. pose proof (batch_len_pos batch_size). lia.
    + apply batch_not_full in Hfull. apply IH. lia.
Qed.






Lemma bind_ext_l {S A B} (m1 m2 : M S A) (k : A → M S B) (s : S) :
  m1 s = m2 s → bind m1 k s = bind m2 k s.
Proof. unfold bind. by intros ->. Qed.

Lemma csv_insert_rows_spec (table : string) (cols : list string)
    (rows : list (list pyval)) (batch_size : Z) (db : DatabaseLayer) :
  csv_insert_rows table cols rows batch_size db =
  bind (flush_batches (insert_sql table cols)
          (chunks (batch_len batch_size) rows) 0%Z)
       (λ total, bind conn_commit (λ _, ret total)) db.
Proof.
  unfold csv_insert_rows. rewrite <- bind_assoc. apply bind_ext_l.
  apply (csv_loop_flush _ _ rows []). apply batch_len_pos.
Qed.


(** X11.  With explicit columns [has_header] is not consulted: the rows all go
    to the table, the first one included. *)
Lemma insert_from_csv_explicit_columns (table : string) (fh : list (list string))
    (cols : list string) (has_header : bool) (batch_size : Z) (db : DatabaseLayer) :
  insert_from_csv table fh (Some cols) has_header batch_size db
  = bulk_insert (insert_sql table cols)
      (chunks (batch_len batch_size) ((λ row : list string, PStr <$> row) <$> fh)) db.
Proof.
  unfold insert_from_csv, bulk_insert. apply bind_cong. intros _ db0.
  apply bind_cong. intros _ db1.
  rewrite andb_false_r. apply csv_insert_rows_spec.
Qed.



Lemma inserted_rows_batches (sql : string) (batches : list (list (list pyval))) :
  inserted_rows ((EvExecuteMany sql <$> batches) ++ [EvCommit]) = concat batches.
Proof.
  unfold inserted_rows. induction batches as [|b rest IH]; [done|].
  simpl. f_equal. exact IH.
Qed.












Lemma enumerate_snoc {A} (xs : list A) (x : A) :
  enumerate (xs ++ [x]) = enumerate xs ++ [(length xs, x)].
Proof.
  unfold enumerate. rewrite length_app, seq_app.
  rewrite zip_with_app by (by rewrite length_seq). done.
Qed.

Lemma row_factory_snoc (description : list string) (col : string)
    (row : list pyval) :
  _row_factory (description ++ [col]) row =
  rbind (_row_factory description row) (λ d,
    match row !! length description with
    | Some v => Ok (<[col := v]> d)
    | None => Raise IndexError
    end).
Proof. unfold _row_factory. by rewrite enumerate_snoc, foldl_app. Qed.

(** On a row that has a value for every column, [_row_factory] returns the
    mapping from the field names to the values of the row. *)
Lemma row_factory_mapping (description : list string) (row : list pyval) :
  (length description ≤ length row)%nat →
  ∃ d, _row_factory description row = Ok d ∧ row_mapping description row d.
Proof.
  induction description as [|col description IH] using rev_ind; intros Hlen.
  - exists ∅. split; [done|]. split; [by intros [|j] ? | by intros].
  - rewrite length_app in Hlen. simpl in Hlen.
    destruct IH as (d & Hd & Hlast & Hnone); [lia|].
    destruct (lookup_lt_is_Some_2 row (length description)) as [v Hv]; [lia|].
    exists (<[col := v]> d). split.
    { rewrite row_factory_snoc, Hd. simpl. by rewrite Hv. }
    split.
    + intros j c Hj Hlater.
      destruct (decide (j = length description)) as [-> | Hne].
      * rewrite list_lookup_middle in Hj by done. injection Hj as <-.
        by rewrite lookup_insert_eq.
      * assert (j < length description)%nat as Hlt.
        { apply lookup_lt_Some in Hj. rewrite length_app in Hj. simpl in Hj. lia. }
        rewrite lookup_app_l in Hj by done.
        assert (c ≠ col) as Hc.
        { intros ->. apply (Hlater (length description)); [done|].
          by rewrite list_lookup_middle. }
        rewrite lookup_insert_ne by done.
        apply Hlast; [done|]. intros j' Hj' Hcol.
        apply (Hlater j' Hj').
        rewrite lookup_app_l; [done|]. by apply lookup_lt_Some in Hcol.
    + intros c Hc. apply not_elem_of_app in Hc as [Hc1 Hc2].
      rewrite lookup_insert_ne by set_solver. by apply Hnone.
Qed.


Lemma run_sql_execute (sql : string) (params : option (list pyval))
    (fetch : bool) (db : DatabaseLayer) :
  run_sql sql params fetch db =
  bind _ensure_conn (λ _, bind the_conn (λ _,
    bind (cur_execute sql (bound_params params)) (λ cur,
      if is_select sql && fetch then
        bind (lift (fetchall (description cur) (pending_rows cur)))
             (λ rows, ret (Rows rows))
      else bind conn_commit (λ _, ret (RowCount (rowcount cur)))))) db.
Proof. unfold run_sql. by destruct params as [[|p ps]|]. Qed.


End LoaderFacts.


(** C6 fails on the code: with [has_header = True] and an explicit column
    list, the header row [id,name] is sent to the table as a data row, and
    the call counts it. *)
Theorem header_row_inserted_with_explicit_columns :
  insert_from_csv "t" [["id"; "name"]; ["1"; "a"]] (Some ["id"; "name"]) true 500
    RefSqlite.fresh
  = (Ok 2%Z,
     {| db_path := ":memory:";
        conn := Some {| conn_path := ":memory:";
                        conn_log :=
                          [EvExecuteMany "INSERT INTO t (id, name) VALUES (?,?)"
                             [[PStr "id"; PStr "name"]; [PStr "1"; PStr "a"]];
                           EvCommit] |} |}).
Proof. by vm_compute. Qed.

(** The same file with the columns inferred: the header row is not sent. *)
Lemma header_row_skipped_with_inferred_columns :
  insert_from_csv "t" [["id"; "name"]; ["1"; "a"]] None true 500 RefSqlite.fresh
  = (Ok 1%Z,
     {| db_path := ":memory:";
        conn := Some {| conn_path := ":memory:";
                        conn_log :=
                          [EvExecuteMany "INSERT INTO t (id, name) VALUES (?,?)"
                             [[PStr "1"; PStr "a"]];
                           EvCommit] |} |}).
Proof. by vm_compute. Qed.





(** * Text: lines, stripping and splitting of a record *)

Section TextFacts.
Implicit Types (s t r : string) (a c : ascii).

Lemma app_cons a s t : String a s +:+ t = String a (s +:+ t).
Proof. reflexivity. Qed.

Lemma app_empty_r s : s +:+ EmptyString = s.
Proof. induction s as [|a s IH]; [done|]. by rewrite app_cons, IH. Qed.

Lemma app_assoc_text s t r : (s +:+ t) +:+ r = s +:+ (t +:+ r).
Proof. induction s as [|a s IH]; [done|]. by rewrite !app_cons, IH. Qed.

Lemma rev_app_append s t acc :
  String.rev_app (s +:+ t) acc = String.rev_app t (String.rev_app s acc).
Proof.
  revert acc. induction s as [|a s IH]; intros acc; [done|].
  rewrite app_cons. simpl. apply IH.
Qed.

Lemma rev_app_twice s t r :
  String.rev_app (String.rev_app s t) r = String.rev_app t (s +:+ r).
Proof.
  revert t. induction s as [|a s IH]; intros t; [done|].
  simpl. rewrite IH. by rewrite app_cons.
Qed.

Lemma rev_snoc s c :
  String.rev (s +:+ String c EmptyString) = String c (String.rev s).
Proof. unfold String.rev. by rewrite rev_app_append. Qed.

Lemma rev_cons_rev c s :
  String.rev (String c (String.rev s)) = s +:+ String c EmptyString.
Proof. unfold String.rev. simpl. by rewrite rev_app_twice. Qed.

Lemma drop_space_heads ws a s :
  Py.unprintable_heads ws = true → Py.text_char a = true →
  Py.drop_space ws (String a s) = None.
Proof.
  intros Hws Ha. unfold Py.drop_space.
  assert (list_find (λ o, is_Some o) ((λ p, Py.strip_prefix p (String a s)) <$> ws)
          = None) as ->; [|done].
  apply list_find_None, Forall_fmap, Forall_forall. intros p Hp.
  unfold Py.unprintable_heads in Hws. rewrite forallb_forall in Hws.
  apply list_elem_of_In in Hp. specialize (Hws p Hp).
  destruct p as [|b p]; [done|]. simpl.
  destruct (decide (b = a)) as [->|]; [|by intros []].
  by rewrite Ha in Hws.
Qed.

(** A printable character is the head of no whitespace character, read
    from either end. *)
Lemma drop_space_left a s :
  Py.text_char a = true → Py.drop_space Py.whitespace (String a s) = None.
Proof. intros Ha. apply drop_space_heads; [by vm_compute | exact Ha]. Qed.

Lemma drop_space_right a s :
  Py.text_char a = true →
  Py.drop_space (String.rev <$> Py.whitespace) (String a s) = None.
Proof. intros Ha. apply drop_space_heads; [by vm_compute | exact Ha]. Qed.

Lemma lstrip_go_stop ws fuel s :
  Py.drop_space ws s = None → Py.lstrip_go ws fuel s = s.
Proof. intros H. destruct fuel; simpl; [done|]. by rewrite H. Qed.

Lemma lstrip_go_newline fuel s :
  Py.lstrip_go (String.rev <$> Py.whitespace) (S fuel) (String (Py.chr 10) s)
  = Py.lstrip_go (String.rev <$> Py.whitespace) fuel s.
Proof. reflexivity. Qed.

(** Stripping a line [a ... c "\n"] whose first and last characters before
    the terminator are printable removes the terminator and nothing else. *)
Lemma strip_line a s c :
  Py.text_char a = true → Py.text_char c = true →
  Py.strip ((String a s +:+ String c EmptyString) +:+ Py.newline)
  = String a s +:+ String c EmptyString.
Proof.
  intros Ha Hc.
  set (line := (String a s +:+ String c EmptyString) +:+ Py.newline).
  assert (Py.lstrip line = line) as Hl.
  { apply lstrip_go_stop. unfold line. rewrite !app_cons.
    apply drop_space_left, Ha. }
  unfold Py.strip. rewrite Hl. unfold Py.rstrip.
  assert (String.rev line
          = String (Py.chr 10) (String c (String.rev (String a s)))) as ->.
  { unfold line, Py.newline. by rewrite !rev_snoc. }
  destruct (String.length line) as [|fuel] eqn:Hlen.
  { unfold line in Hlen. rewrite !app_cons in Hlen. discriminate. }
  rewrite lstrip_go_newline.
  rewrite (lstrip_go_stop _ fuel (String c (String.rev (String a s))))
    by apply drop_space_right, Hc.
  apply rev_cons_rev.
Qed.

Lemma plain_not_comma a : Py.plain_char a = true → a ≠ ","%char.
Proof. by intros H ->. Qed.

Lemma plain_text a : Py.plain_char a = true → Py.text_char a = true.
Proof. unfold Py.plain_char. by intros [? _]%andb_prop. Qed.

(** A text without a comma is one field. *)
Lemma split_plain s :
  Py.all_chars Py.plain_char s = true → Py.split "," s = [s].
Proof.
  induction s as [|a s IH]; [done|]. simpl.
  intros [Ha Hs]%andb_prop.
  rewrite decide_False by (by apply plain_not_comma). by rewrite IH.
Qed.

Lemma split_record s t :
  Py.all_chars Py.plain_char s = true →
  Py.split "," (s +:+ String "," t) = s :: Py.split "," t.
Proof.
  induction s as [|a s IH]; [done|]. simpl.
  intros [Ha Hs]%andb_prop.
  rewrite decide_False by (by apply plain_not_comma). by rewrite IH.
Qed.

(** A non-empty text ends with its last character. *)
Lemma plain_snoc s :
  s ≠ EmptyString → Py.all_chars Py.plain_char s = true →
  ∃ s0 c, s = s0 +:+ String c EmptyString ∧ Py.plain_char c = true.
Proof.
  induction s as [|a s IH]; [done|]. intros _ [Ha Hs]%andb_prop.
  destruct s as [|b s].
  - by exists EmptyString, a.
  - destruct IH as (s0 & c & -> & Hc); [done..|].
    by exists (String a s0), c.
Qed.

(** The record [register_user] writes reads back as its two fields. *)
Lemma record_fields (u h : string) :
  Py.all_chars Py.plain_char u = true →
  Py.all_chars Py.plain_char h = true → h ≠ EmptyString →
  fields (u +:+ "," +:+ h +:+ Py.newline) = [u; h].
Proof.
  intros Hu Hh Hne. unfold fields.
  destruct (plain_snoc h Hne Hh) as (h0 & c & Hh0 & Hc).
  assert (∃ a s, u +:+ String "," h0 = String a s ∧ Py.text_char a = true)
    as (a & s & Hhead & Ha).
  { destruct u as [|a u]; [by eexists _, _|].
    exists a, (u +:+ String "," h0). split; [done|].
    apply plain_text. by apply andb_prop in Hu as [? _]. }
  assert (u +:+ "," +:+ h +:+ Py.newline
          = (String a s +:+ String c EmptyString) +:+ Py.newline) as ->.
  { rewrite <- Hhead, Hh0. change ("," +:+ ?x) with (String "," x).
    by rewrite !app_assoc_text. }
  rewrite strip_line by (done || by apply plain_text).
  rewrite <- Hhead, app_assoc_text. change (String "," h0 +:+ ?x) with (String "," (h0 +:+ x)).
  rewrite <- Hh0, split_record by done. by rewrite split_plain.
Qed.

Lemma plain_not_cr a : Py.plain_char a = true → a ≠ Py.chr 13.
Proof. by intros H ->. Qed.

Lemma plain_not_lf a : Py.plain_char a = true → a ≠ Py.chr 10.
Proof. by intros H ->. Qed.

Lemma un_cons b t :
  b ≠ Py.chr 13 →
  Py.universal_newlines (String b t) = String b (Py.universal_newlines t).
Proof. intros Hb. simpl. by rewrite decide_False. Qed.

Lemma un_cr_lf t :
  Py.universal_newlines (String (Py.chr 13) (String (Py.chr 10) t))
  = String (Py.chr 10) (Py.universal_newlines t).
Proof. reflexivity. Qed.

Lemma un_cr_other b t :
  b ≠ Py.chr 10 →
  Py.universal_newlines (String (Py.chr 13) (String b t))
  = String (Py.chr 10) (Py.universal_newlines (String b t)).
Proof.
  intros Hb. cbn [Py.universal_newlines].
  rewrite decide_True by done. by rewrite (decide_False (P := b = Py.chr 10)).
Qed.

(** Reading leaves a text of plain characters as it is. *)
Lemma universal_newlines_plain s :
  Py.all_chars Py.plain_char s = true → Py.universal_newlines s = s.
Proof.
  induction s as [|a s IH]; [done|]. simpl. intros [Ha Hs]%andb_prop.
  rewrite decide_False by (by apply plain_not_cr). by rewrite IH.
Qed.

(** A record written after a text is read after that text. *)
Lemma universal_newlines_record t u h :
  Py.all_chars Py.plain_char u = true → Py.all_chars Py.plain_char h = true →
  Py.universal_newlines (t +:+ (u +:+ "," +:+ h +:+ Py.newline))
  = Py.universal_newlines t +:+ (u +:+ "," +:+ h +:+ Py.newline).
Proof.
  intros Hu Hh.
  set (r := u +:+ "," +:+ h +:+ Py.newline).
  assert (Py.universal_newlines r = r) as Hr.
  { unfold r. clear r. induction u as [|a u IH].
    - change (Py.universal_newlines (String "," (h +:+ Py.newline))
              = String "," (h +:+ Py.newline)).
      simpl. f_equal.
      induction h as [|b h IHh]; [done|]. simpl in *.
      apply andb_prop in Hh as [Hb Hh].
      rewrite decide_False by (by apply plain_not_cr). by rewrite IHh.
    - simpl in *. apply andb_prop in Hu as [Ha Hu].
      rewrite decide_False by (by apply plain_not_cr). by rewrite IH. }
  assert (∃ a r', r = String a r' ∧ a ≠ Py.chr 10) as (a & r' & Hhead & Ha).
  { unfold r. destruct u as [|a u]; [by eexists _, _|].
    exists a, (u +:+ "," +:+ h +:+ Py.newline). split; [done|].
    apply plain_not_lf. by apply andb_prop in Hu as [? _]. }
  clearbody r. clear Hu Hh u h. subst r.
  remember (String.length t) as n eqn:Hn. revert t Hn.
  induction n as [n IH] using lt_wf_ind. intros t ->.
  destruct t as [|b t]; [done|].
  destruct (decide (b = Py.chr 13)) as [->|Hb].
  - destruct t as [|b' t].
    + change (String (Py.chr 13) EmptyString +:+ String a r')
        with (String (Py.chr 13) (String a r')).
      rewrite un_cr_other by done. by rewrite Hr.
    + rewrite !app_cons. destruct (decide (b' = Py.chr 10)) as [->|Hb'].
      * rewrite !un_cr_lf, app_cons. f_equal.
        apply (IH (String.length t)); [simpl; lia | done].
      * rewrite !un_cr_other by done. rewrite app_cons. f_equal.
        rewrite <- app_cons.
        apply (IH (String.length (String b' t))); [simpl; lia | done].
  - rewrite app_cons, !un_cons by done. rewrite app_cons. f_equal.
    apply (IH (String.length t)); [simpl; lia | done].
Qed.

Lemma keepends_plain s :
  Py.all_chars Py.plain_char s = true →
  Py.keepends (s +:+ Py.newline) = [s +:+ Py.newline].
Proof.
  induction s as [|a s IH]; [done|]. simpl. intros [Ha Hs]%andb_prop.
  rewrite decide_False by (by apply plain_not_lf). by rewrite IH.
Qed.

Lemma keepends_nonempty a s : Py.keepends (String a s) ≠ [].
Proof.
  simpl. destruct (decide (a = Py.chr 10)); [done|].
  by destruct (Py.keepends s).
Qed.

Lemma keepends_terminated t r :
  Py.keepends ((t +:+ Py.newline) +:+ r)
  = Py.keepends (t +:+ Py.newline) ++ Py.keepends r.
Proof.
  induction t as [|a t IH]; [done|]. simpl.
  destruct (decide (a = Py.chr 10)); [by rewrite IH|].
  rewrite IH. destruct (Py.keepends (t +:+ Py.newline)) eqn:Hk; [|done].
  exfalso. destruct t; by eapply keepends_nonempty in Hk.
Qed.

End TextFacts.

(** * Registering the same username twice *)

Section RegisterTwice.
Context {B : Bcrypt} {HB : BcryptContract B}.

Lemma hash_text_plain (bs : list byte) :
  Forall hash_byte bs →
  Py.all_chars Py.plain_char (string_of_list_byte bs) = true.
Proof.
  induction 1 as [|b bs Hb _ IH]; [done|].
  change (Py.plain_char (ascii_of_byte b)
          && Py.all_chars Py.plain_char (string_of_list_byte bs) = true).
  by rewrite Hb, IH.
Qed.

Lemma keepends_record (u h : string) :
  Py.all_chars Py.plain_char u = true → Py.all_chars Py.plain_char h = true →
  Py.keepends (u +:+ "," +:+ h +:+ Py.newline) = [u +:+ "," +:+ h +:+ Py.newline].
Proof.
  intros Hu Hh. induction u as [|a u IH].
  - change (Py.keepends (String "," (h +:+ Py.newline))
            = [String "," (h +:+ Py.newline)]).
    simpl. by rewrite keepends_plain.
  - simpl in *. apply andb_prop in Hu as [Ha Hu].
    rewrite decide_False by (by apply plain_not_lf). by rewrite IH.
Qed.

(** Appending a record to a terminated store adds one line, the record. *)
Lemma file_lines_record (content u h : string) :
  (Py.universal_newlines content = EmptyString
   ∨ ∃ t, Py.universal_newlines content = t +:+ Py.newline) →
  Py.all_chars Py.plain_char u = true → Py.all_chars Py.plain_char h = true →
  Py.file_lines (content +:+ (u +:+ "," +:+ h +:+ Py.newline))
  = Py.file_lines content ++ [u +:+ "," +:+ h +:+ Py.newline].
Proof.
  intros Hterm Hu Hh. unfold Py.file_lines.
  rewrite universal_newlines_record by done.
  destruct Hterm as [-> | [t ->]].
  - by apply keepends_record.
  - by rewrite keepends_terminated, keepends_record.
Qed.

Lemma user_exists_scan_app (u : string) (lines more : list string) :
  user_exists_scan u lines = Ok false →
  user_exists_scan u (lines ++ more) = user_exists_scan u more
  ∧ stored_hash_scan u (lines ++ more) = stored_hash_scan u more.
Proof.
  induction lines as [|line rest IH]; [done|]. simpl. unfold fields.
  destruct (Py.split "," (Py.strip line)) as [|a [|b [|c l]]]; simpl; try done.
  destruct (decide (a = u)); [done | exact IH].
Qed.

(** X1.  Registration round trip, for every username of plain
    characters and every password of at most 72 bytes: on a store that
    ends with a line terminator and does not hold [u],
    [register_user(u, p1)] succeeds, and a second call
    [register_user(u, p2)] returns [False], leaves the file as the first
    call left it, and [p1] still logs in. *)
Theorem register_twice (u p1 p2 : string) (w : World) :
  Py.all_chars Py.plain_char u = true →
  (length (Py.encode p1) ≤ 72)%nat →
  terminated w →
  (user_exists u w).1 = Ok false →
  ∃ w1 w2, register_user u p1 w = (Ok true, w1)
           ∧ register_user u p2 w1 = (Ok false, w2)
           ∧ users_file w2 = users_file w1
           ∧ (login_user u p1 w2).1 = Ok true.
Proof.
  intros Hu Hp1 Hterm Habsent.
  set (salt := (gensalt (rng w)).1).
  set (hbytes := salt ++ bcrypt_digest (Py.encode p1) salt).
  set (h := string_of_list_byte hbytes).
  set (record := u +:+ "," +:+ h +:+ Py.newline).
  set (content := default EmptyString (users_file w)).
  assert (Py.all_chars Py.plain_char h = true) as Hh
    by apply hash_text_plain, hash_bytes.
  assert (h ≠ EmptyString) as Hne.
  { intros Heq. apply (f_equal Py.encode) in Heq. unfold h in Heq.
    rewrite encode_of_bytes in Heq. apply (f_equal length) in Heq.
    unfold hbytes in Heq. rewrite length_app in Heq.
    pose proof (gensalt_length (rng w)). fold salt in H. simpl in Heq. lia. }
  assert (user_exists_scan u (Py.file_lines content) = Ok false) as Hold.
  { unfold user_exists in Habsent. unfold content.
    by destruct (users_file w). }
  assert (register_user u p1 w =
            (Ok true, {| users_file := Some (content +:+ record);
                         stdout := stdout w ++
                           [" Success: User '" +:+ u +:+ "' registered successfully!"];
                         rng := (gensalt (rng w)).2 |})) as Hfirst.
  { unfold register_user, bind.
    pose proof (user_exists_state u w) as Hst.
    destruct (user_exists u w) as [r w0]. simpl in Habsent, Hst. subst r w0.
    by rewrite hash_password_run. }
  eexists. rewrite Hfirst.
  set (w1 := {| users_file := Some (content +:+ record) |}).
  assert (Py.file_lines (content +:+ record)
          = Py.file_lines content ++ [record]) as Hlines
    by (by apply file_lines_record).
  destruct (user_exists_scan_app u (Py.file_lines content) [record] Hold)
    as [Hscan Hstored].
  assert (fields record = [u; h]) as Hfields by (by apply record_fields).
  assert ((user_exists u w1).1 = Ok true) as Hpresent.
  { unfold user_exists. simpl. rewrite Hlines, Hscan. simpl.
    unfold fields in Hfields. rewrite Hfields. simpl. by rewrite decide_True. }
  eexists. split_and!; [done | by apply register_present_run | done |].
  apply (login_stored u p1 h).
  - unfold stored_hash. simpl. rewrite Hlines, Hstored. simpl.
    rewrite Hfields. by rewrite decide_True.
  - unfold verify_password, h. rewrite encode_of_bytes.
    by apply checkpw_hashed.
Qed.

End RegisterTwice.

Lemma register_twice_witness :
  ∃ w1 w2, register_user "alice" "secret1" no_store = (Ok true, w1)
           ∧ register_user "alice" "other" w1 = (Ok false, w2)
           ∧ users_file w2 = users_file w1
           ∧ (login_user "alice" "secret1" w2).1 = Ok true.
Proof.
  apply (register_twice (HB := RefBcryptFacts.contract));
    [reflexivity | vm_compute; lia | | reflexivity].
  by left.
Defined.

(** The hypotheses on the username and on the store are needed.  [line.strip()]
    removes a leading space of the record, so a username that starts with
    one is never found again; and a record written after a store that does
    not end with a line terminator joins the last line. *)
Remark register_twice_limits :
  (register_user " alice" "other"
     (register_user " alice" "secret1" no_store).2).1 = Ok true
  ∧ ∃ msg, (register_user "bob" "other"
              (register_user "bob" "secret1" (store_of "alice,x")).2).1
           = Raise (ValueError msg).
Proof. split; [by vm_compute | eexists; by vm_compute]. Qed.

(** * The primitives on concrete inputs *)

Example strip_record :
  Py.strip (" alice,x " +:+ Py.newline) = "alice,x".
Proof. reflexivity. Qed.

Example split_three_fields :
  Py.split "," "bob,x,admin" = ["bob"; "x"; "admin"]
  ∧ Py.split "," EmptyString = [EmptyString].
Proof. split; reflexivity. Qed.

Example file_lines_mixed_terminators :
  Py.file_lines ("a,b" +:+ String (Py.chr 13) Py.newline +:+ "c,d"
                 +:+ String (Py.chr 13) "e,f")
  = ["a,b" +:+ Py.newline; "c,d" +:+ Py.newline; "e,f"].
Proof. reflexivity. Qed.

Example is_select_examples :
  is_select "  SeLeCT * FROM t" = true
  ∧ is_select "INSERT INTO t VALUES (1)" = false
  ∧ is_select "WITH x AS (SELECT 1) SELECT * FROM x" = false.
Proof. split_and!; reflexivity. Qed.

Example chunks_five_by_two :
  chunks 2 [1; 2; 3; 4; 5]%nat = [[1; 2]; [3; 4]; [5]]%nat.
Proof. reflexivity. Qed.

Example dict_last_value_first_place :
  dict_get [("a", PInt 1); ("b", PInt 2); ("a", PInt 3)] "a" = PInt 3
  ∧ dict_keys [("a", PInt 1); ("b", PInt 2); ("a", PInt 3)] = ["a"; "b"].
Proof. split; reflexivity. Qed.

Example DictReader_short_and_long_rows :
  _row_values (DictReader_row ["id"; "name"] ["1"]) ["id"; "name"]
    = [PStr "1"; PNone]
  ∧ _row_values (DictReader_row ["id"; "name"] ["1"; "a"; "extra"]) ["id"; "name"]
    = [PStr "1"; PStr "a"].
Proof. split; by vm_compute. Qed.

(** * The credential store: what the scans read *)

Section ScanFacts.
Context {B : Bcrypt}.

Lemma two_fields (line : string) :
  length (fields line) = 2%nat → ∃ a b, fields line = [a; b].
Proof. destruct (fields line) as [|a [|b [|c l]]]; try done. eauto. Qed.

(** X3.  On a store whose lines all have two fields, [user_exists] returns
    whether the username is the first field of some line; without a store
    it returns [False]. *)
Theorem user_exists_membership (u : string) (w : World) :
  let lines := Py.file_lines (default EmptyString (users_file w)) in
  Forall (λ line, length (fields line) = 2%nat) lines →
  (user_exists u w).1 = Ok (bool_decide (u ∈ first_fields lines)).
Proof.
  intros lines Hall.
  assert ((user_exists u w).1 = user_exists_scan u lines) as ->.
  { unfold user_exists, lines. by destruct (users_file w). }
  induction Hall as [|line rest Hline _ IH]; [done|].
  destruct (two_fields line Hline) as (a & b & Hf).
  assert (first_fields (line :: rest) = a :: first_fields rest) as ->.
  { unfold first_fields. simpl. by rewrite Hf. }
  simpl. unfold fields in Hf. rewrite Hf. simpl.
  destruct (decide (a = u)) as [->|Hne].
  - by rewrite bool_decide_eq_true_2 by left.
  - rewrite IH. f_equal. apply bool_decide_ext. rewrite elem_of_cons.
    split; [by right | by intros [->|?]].
Qed.

Lemma scan_raises_at (u bad : string) (before after : list string) :
  length (fields bad) ≠ 2%nat → Forall (passed_over u) before →
  ∃ msg, user_exists_scan u (before ++ bad :: after) = Raise (ValueError msg).
Proof.
  intros Hbad Hbefore.
  induction Hbefore as [|line rest (a & b & Hf & Hne) _ IH]; simpl.
  - unfold fields in Hbad.
    destruct (Py.split "," (Py.strip bad)) as [|a [|b [|c l]]]; simpl in *;
      try done; eauto.
  - unfold fields in Hf. rewrite Hf. simpl. by rewrite decide_False.
Qed.

(** X4.  [user_exists] raises exactly when its scan reaches a line that does not
    split into two fields; the exception is a [ValueError]. *)
Theorem user_exists_raises_iff (u : string) (w : World) :
  (∃ e, (user_exists u w).1 = Raise e)
  ↔ ∃ content before bad after,
      users_file w = Some content
      ∧ Py.file_lines content = before ++ bad :: after
      ∧ length (fields bad) ≠ 2%nat
      ∧ Forall (passed_over u) before.
Proof.
  unfold user_exists. split.
  - intros [e He]. destruct (users_file w) as [content|]; [|done].
    simpl in He.
    destruct (user_exists_scan_raises u _ e He) as (before & bad & after & ? & ? & ?).
    by exists content, before, bad, after.
  - intros (content & before & bad & after & -> & Hlines & Hbad & Hbefore).
    simpl. rewrite Hlines.
    destruct (scan_raises_at u bad before after Hbad Hbefore) as [msg ->]. eauto.
Qed.

(** X5.  The record that decides a login is the first one of the username:
    [login_user] returns what [verify_password] says of its hash, and never
    reads the lines after it. *)
Theorem login_user_first_record
    (u p h content line : string) (before after : list string) (w : World) :
  users_file w = Some content →
  Py.file_lines content = before ++ line :: after →
  Forall (passed_over u) before →
  fields line = [u; h] →
  login_user u p w =
    match verify_password p h with
    | Ok true => (Ok true, printed w (" Success: Welcome, " +:+ u +:+ "!"))
    | Ok false => (Ok false, printed w " Error: Invalid password.")
    | Raise e => (Raise e, w)
    end.
Proof.
  intros Hfile Hlines Hbefore Hline. unfold login_user. rewrite Hfile, Hlines.
  clear Hfile Hlines.
  induction Hbefore as [|l rest (a & b & Hf & Hne) _ IH]; simpl.
  - unfold bind, lift. unfold fields in Hline. rewrite Hline. simpl.
    rewrite decide_True by done.
    by destruct (verify_password p h) as [[]|].
  - unfold bind, lift. unfold fields in Hf. rewrite Hf. simpl.
    by rewrite decide_False.
Qed.

Lemma login_scan_frame (u p : string) (lines : list string) (w : World) :
  users_file (login_scan u p lines w).2 = users_file w
  ∧ rng (login_scan u p lines w).2 = rng w.
Proof.
  induction lines as [|line rest IH]; simpl; [done|].
  unfold bind, lift.
  destruct (unpack2 (Py.split "," (Py.strip line))) as [[a b]|e]; simpl; [|done].
  destruct (decide (a = u)); [|done].
  by destruct (verify_password p b) as [[]|].
Qed.

(** X6.  The store is append-only.  [user_exists] changes nothing; [login_user]
    leaves the file and the entropy as they are; [register_user] leaves
    the file as it is, or returns [True] having appended one record
    [username,hash] and its line terminator. *)
Theorem store_append_only (u p : string) (w : World) :
  (user_exists u w).2 = w
  ∧ users_file (login_user u p w).2 = users_file w
  ∧ rng (login_user u p w).2 = rng w
  ∧ (users_file (register_user u p w).2 = users_file w
     ∨ ∃ h, (register_user u p w).1 = Ok true
            ∧ users_file (register_user u p w).2
              = Some (default EmptyString (users_file w)
                      +:+ u +:+ "," +:+ h +:+ Py.newline)).
Proof.
  split_and!.
  - apply user_exists_state.
  - unfold login_user. destruct (users_file w) eqn:Hf; [|done].
    rewrite <- Hf. apply login_scan_frame.
  - unfold login_user. destruct (users_file w); [|done]. apply login_scan_frame.
  - unfold register_user, bind.
    pose proof (user_exists_state u w) as Hst.
    destruct (user_exists u w) as [[[]|e] w0]; simpl in Hst; subst w0;
      [by left | | by left].
    unfold hash_password, bind, lift. rewrite draw_salt_run.
    destruct (hashpw (Py.encode p) (gensalt (rng w)).1) as [hashed|]; [|by left].
    destruct (Py.decode hashed) as [h|]; [|by left].
    right. by exists h.
Qed.

End ScanFacts.

(** * The credential store: registering next to other users *)

Section OtherUsers.
Context {B : Bcrypt} {HB : BcryptContract B}.

(** What a successful registration leaves: one more line, the record. *)
Lemma register_new_run (u p : string) (w : World) :
  Py.all_chars Py.plain_char u = true →
  (length (Py.encode p) ≤ 72)%nat →
  terminated w →
  (user_exists u w).1 = Ok false →
  ∃ h, let content := default EmptyString (users_file w) in
       let record := u +:+ "," +:+ h +:+ Py.newline in
       register_user u p w =
         (Ok true, {| users_file := Some (content +:+ record);
                      stdout := stdout w ++
                        [" Success: User '" +:+ u +:+ "' registered successfully!"];
                      rng := (gensalt (rng w)).2 |})
       ∧ Py.file_lines (content +:+ record) = Py.file_lines content ++ [record]
       ∧ fields record = [u; h]
       ∧ user_exists_scan u (Py.file_lines content) = Ok false.
Proof.
  intros Hu Hp Hterm Habsent.
  set (salt := (gensalt (rng w)).1).
  set (hbytes := salt ++ bcrypt_digest (Py.encode p) salt).
  exists (string_of_list_byte hbytes). intros content record.
  assert (Py.all_chars Py.plain_char (string_of_list_byte hbytes) = true) as Hh
    by apply hash_text_plain, hash_bytes.
  assert (string_of_list_byte hbytes ≠ EmptyString) as Hne.
  { intros Heq. apply (f_equal Py.encode) in Heq.
    rewrite encode_of_bytes in Heq. apply (f_equal length) in Heq.
    unfold hbytes in Heq. rewrite length_app in Heq.
    pose proof (gensalt_length (rng w)) as Hlen. fold salt in Hlen.
    simpl in Heq. lia. }
  split_and!.
  - unfold register_user, bind.
    pose proof (user_exists_state u w) as Hst.
    destruct (user_exists u w) as [r w0]. simpl in Habsent, Hst. subst r w0.
    by rewrite hash_password_run.
  - by apply file_lines_record.
  - by apply record_fields.
  - unfold user_exists in Habsent. unfold content. by destruct (users_file w).
Qed.

(** With a password the library refuses, the registration raises and the
    file is as it was. *)
Lemma register_long_run (u p : string) (w : World) :
  (72 < length (Py.encode p))%nat →
  (user_exists u w).1 = Ok false →
  users_file (register_user u p w).2 = users_file w.
Proof.
  intros Hp Habsent. unfold register_user, bind.
  pose proof (user_exists_state u w) as Hst.
  destruct (user_exists u w) as [r w0]. simpl in Habsent, Hst. subst r w0.
  by rewrite hash_password_long.
Qed.

(** What a scan returns depends on the file only. *)
Lemma login_scan_result (v q : string) (lines : list string) (w1 w2 : World) :
  (login_scan v q lines w1).1 = (login_scan v q lines w2).1.
Proof.
  induction lines as [|line rest IH]; simpl; [done|].
  unfold bind, lift.
  destruct (unpack2 (Py.split "," (Py.strip line))) as [[a b]|e]; simpl; [|done].
  destruct (decide (a = v)); [|exact IH].
  by destruct (verify_password q b) as [[]|].
Qed.

Lemma scan_absent_passed (u : string) (lines : list string) :
  user_exists_scan u lines = Ok false → Forall (passed_over u) lines.
Proof.
  induction lines as [|line rest IH]; [done|]. simpl.
  destruct (fields line) as [|a [|b [|c l]]] eqn:Hf; unfold fields in Hf;
    rewrite Hf; simpl; try done.
  case_decide; [done|]. intros Hrest. constructor; [|by apply IH].
  exists a, b. by unfold fields.
Qed.

(** Lines with two fields each let every scan through. *)
Lemma scan_result (u v : string) (lines : list string) :
  Forall (passed_over u) lines → ∃ b, user_exists_scan v lines = Ok b.
Proof.
  induction 1 as [|line rest (a & b & Hf & _) _ [r IH]]; [by exists false|].
  simpl. unfold fields in Hf. rewrite Hf. simpl.
  destruct (decide (a = v)); eauto.
Qed.

Lemma scan_found_app (v q : string) (lines more : list string) (w : World) :
  user_exists_scan v lines = Ok true →
  user_exists_scan v (lines ++ more) = Ok true
  ∧ stored_hash_scan v (lines ++ more) = stored_hash_scan v lines
  ∧ login_scan v q (lines ++ more) w = login_scan v q lines w.
Proof.
  induction lines as [|line rest IH]; [done|]. simpl. unfold fields, bind, lift.
  destruct (Py.split "," (Py.strip line)) as [|a [|b [|c l]]]; simpl; try done.
  destruct (decide (a = v)); [done | exact IH].
Qed.

Lemma login_scan_found_result (v q : string) (lines more : list string)
    (w1 w2 : World) :
  user_exists_scan v lines = Ok true →
  (login_scan v q (lines ++ more) w1).1 = (login_scan v q lines w2).1.
Proof.
  intros Hscan.
  destruct (scan_found_app v q lines more w1 Hscan) as (_ & _ & ->).
  destruct (user_exists_scan_stored v lines Hscan) as [hv Hhv].
  by rewrite !(login_scan_stored v q hv).
Qed.

Lemma login_scan_absent_app (v q : string) (lines more : list string) (w : World) :
  user_exists_scan v lines = Ok false →
  login_scan v q (lines ++ more) w = login_scan v q more w.
Proof.
  induction lines as [|line rest IH]; [done|]. simpl. unfold bind, lift.
  destruct (Py.split "," (Py.strip line)) as [|a [|b [|c l]]]; simpl; try done.
  destruct (decide (a = v)); [done | exact IH].
Qed.

(** X2.  Registering [u] changes nothing for any other username [v]: whether
    [v] exists, the hash on record for [v], and what [login_user] returns
    for [v] are the same before and after. *)
Theorem register_keeps_other_users (u p v : string) (w : World) :
  Py.all_chars Py.plain_char u = true →
  terminated w →
  (user_exists u w).1 = Ok false →
  v ≠ u →
  let w1 := (register_user u p w).2 in
  (user_exists v w1).1 = (user_exists v w).1
  ∧ stored_hash v w1 = stored_hash v w
  ∧ ∀ q, (login_user v q w1).1 = (login_user v q w).1.
Proof.
  intros Hu Hterm Habsent Hv.
  destruct (decide (length (Py.encode p) ≤ 72)%nat) as [Hp | Hp].
  2: { intros w1. pose proof (register_long_run u p w ltac:(lia) Habsent) as Hfile.
       fold w1 in Hfile. unfold user_exists, stored_hash, login_user.
       rewrite Hfile. destruct (users_file w) as [content|]; [|done].
       split_and!; [done..|]. intros q. apply login_scan_result. }
  destruct (register_new_run u p w Hu Hp Hterm Habsent)
    as (h & Hrun & Hlines & Hfields & Hold).
  simpl in Hrun, Hlines, Hfields, Hold. intros w1. subst w1. rewrite Hrun.
  unfold user_exists, stored_hash, login_user. simpl. rewrite Hlines.
  set (record := u +:+ "," +:+ h +:+ Py.newline) in *.
  assert (user_exists_scan v [record] = Ok false
          ∧ stored_hash_scan v [record] = None
          ∧ ∀ q w', (login_scan v q [record] w').1 = Ok false)
    as (Hrec1 & Hrec2 & Hrec3).
  { simpl. unfold bind, lift. rewrite Hfields. unfold fields in Hfields.
    rewrite Hfields. simpl. by destruct (decide (u = v)). }
  remember (Py.file_lines (default EmptyString (users_file w))) as lines
    eqn:Hl.
  destruct (scan_result u v lines (scan_absent_passed u lines Hold)) as [[] Hscan].
  - destruct (scan_found_app v EmptyString lines [record] w Hscan) as (H1 & H2 & _).
    rewrite H1, H2.
    destruct (users_file w) as [content|]; simpl in Hl; subst lines; [|done].
    simpl. rewrite Hscan. split_and!; [done..|].
    intros q. by apply login_scan_found_result.
  - destruct (user_exists_scan_app v lines [record] Hscan) as [-> ->].
    rewrite Hrec1, Hrec2.
    assert (stored_hash_scan v lines = None) as Hnone.
    { clear -Hscan. induction lines as [|line rest IH]; [done|].
      simpl in *. unfold fields.
      destruct (Py.split "," (Py.strip line)) as [|a [|b [|c l]]]; simpl in *;
        try done.
      destruct (decide (a = v)); [done | by apply IH]. }
    assert (∀ q w', (login_scan v q lines w').1 = Ok false) as Hlogin.
    { intros q w'.
      rewrite <- (app_nil_r lines), login_scan_absent_app by done. done. }
    assert (∀ q w', (login_scan v q (lines ++ [record]) w').1 = Ok false)
      as Hlogin'.
    { intros q w'. by rewrite login_scan_absent_app. }
    destruct (users_file w) as [content|]; simpl in Hl; subst lines; simpl.
    + rewrite Hscan, Hnone. split_and!; [done..|].
      intros q. by rewrite Hlogin, Hlogin'.
    + split_and!; [done..|]. intros q. exact (Hrec3 q _).
Qed.

End OtherUsers.

Lemma register_keeps_other_users_witness :
  (user_exists "alice" (register_user "bob" "hunter22" alice_registered).2).1
    = (user_exists "alice" alice_registered).1
  ∧ stored_hash "alice" (register_user "bob" "hunter22" alice_registered).2
    = stored_hash "alice" alice_registered
  ∧ ∀ q, (login_user "alice" q (register_user "bob" "hunter22" alice_registered).2).1
         = (login_user "alice" q alice_registered).1.
Proof.
  apply (register_keeps_other_users (HB := RefBcryptFacts.contract)
           "bob" "hunter22" "alice" alice_registered).
  - reflexivity.
  - right.
    exists (let text := default EmptyString (users_file alice_registered) in
            substring 0 (String.length text - 1) text).
    by vm_compute.
  - by vm_compute.
  - discriminate.
Defined.

Lemma user_exists_membership_witness :
  (user_exists "alice" alice_registered).1
  = Ok (bool_decide ("alice" ∈ first_fields
          (Py.file_lines (default EmptyString (users_file alice_registered))))).
Proof.
  apply (user_exists_membership "alice" alice_registered).
  vm_compute. repeat constructor.
Defined.

Lemma login_user_first_record_witness :
  (login_user "alice" "secret1" mixed_store).1 = Ok true.
Proof.
  pose proof (login_user_first_record "alice" "secret1"
    (default EmptyString (stored_hash "alice" alice_registered))
    (default EmptyString (users_file mixed_store))
    (default EmptyString (users_file alice_registered))
    [] ["bob,x,admin" +:+ Py.newline] mixed_store) as H.
  rewrite H; [by vm_compute | reflexivity | by vm_compute | constructor | by vm_compute].
Defined.

(** * The bulk loader: rows of a CSV file *)

Section CsvRows.

Lemma foldl_insert_notin {V} (g : string → V) (l : list (string * string))
    (d0 : gmap string V) (k : string) :
  k ∉ l.*1 → foldl (λ d kv, <[kv.1 := g kv.2]> d) d0 l !! k = d0 !! k.
Proof.
  revert d0. induction l as [|[k' v'] l IH]; intros d0 Hk; [done|].
  simpl in *. apply not_elem_of_cons in Hk as [Hne Hk].
  rewrite IH by done. by rewrite lookup_insert_ne.
Qed.

Lemma foldl_insert_nodup {V} (g : string → V) (l : list (string * string))
    (d0 : gmap string V) (k v : string) :
  NoDup l.*1 → (k, v) ∈ l →
  foldl (λ d kv, <[kv.1 := g kv.2]> d) d0 l !! k = Some (g v).
Proof.
  revert d0. induction l as [|[k' v'] l IH]; intros d0 Hnd Hin.
  { by apply elem_of_nil in Hin. }
  simpl in *. apply NoDup_cons in Hnd as [Hk' Hnd].
  apply elem_of_cons in Hin as [[= -> ->] | Hin].
  - rewrite foldl_insert_notin by done. by rewrite lookup_insert_eq.
  - by apply IH.
Qed.

Lemma foldl_pad_notin (ks : list string) (d0 : gmap string pyval) (k : string) :
  k ∉ ks → foldl (λ d key, <[key := PNone]> d) d0 ks !! k = d0 !! k.
Proof.
  revert d0. induction ks as [|k' ks IH]; intros d0 Hk; [done|].
  simpl. apply not_elem_of_cons in Hk as [Hne Hk].
  rewrite IH by done. by rewrite lookup_insert_ne.
Qed.

Lemma foldl_pad_in (ks : list string) (d0 : gmap string pyval) (k : string) :
  k ∈ ks → foldl (λ d key, <[key := PNone]> d) d0 ks !! k = Some PNone.
Proof.
  revert d0. induction ks as [|k' ks IH]; intros d0 Hk.
  { by apply elem_of_nil in Hk. }
  simpl. destruct (decide (k ∈ ks)) as [Hin | Hnot]; [by apply IH|].
  apply elem_of_cons in Hk as [-> | ?]; [|done].
  rewrite foldl_pad_notin by done. by rewrite lookup_insert_eq.
Qed.

Lemma zip_fst_NoDup (header row : list string) :
  NoDup header → NoDup (zip header row).*1.
Proof.
  revert row. induction header as [|h header IH]; intros row Hnd; [constructor|].
  destruct row as [|r row]; [constructor|]. simpl.
  apply NoDup_cons in Hnd as [Hh Hnd]. apply NoDup_cons. split; [|by apply IH].
  intros Hin. apply Hh. apply list_elem_of_fmap in Hin as ([a b] & -> & Hin).
  by apply elem_of_zip_l in Hin.
Qed.

(** The dict the reader yields for a row, under distinct field names: each
    name maps to the value at its place, or to [None] past the end of a
    short row. *)
Lemma DictReader_row_lookup (header row : list string) (j : nat) (col : string) :
  NoDup header → header !! j = Some col →
  DictReader_row header row !! col = Some (from_option PStr PNone (row !! j)).
Proof.
  intros Hnd Hj. unfold DictReader_row.
  destruct (row !! j) as [r|] eqn:Hr; simpl.
  - rewrite foldl_pad_notin.
    + apply (foldl_insert_nodup PStr); [by apply zip_fst_NoDup|].
      apply list_elem_of_lookup. exists j.
      by rewrite lookup_zip_with, Hj, Hr.
    + intros Hin. apply list_elem_of_lookup in Hin as [i Hi].
      rewrite lookup_drop in Hi.
      pose proof (NoDup_lookup _ _ _ _ Hnd Hj Hi) as Heq.
      apply lookup_lt_Some in Hr. lia.
  - apply foldl_pad_in. apply list_elem_of_lookup.
    apply lookup_ge_None in Hr. exists (j - length row)%nat.
    rewrite lookup_drop. by replace (length row + (j - length row))%nat with j by lia.
Qed.

(** X10.  The tuple built from a row of a CSV file with a header of distinct
    names has the arity of the header: the values of the row in order, cut
    at the width of the header, and [None] for each column a short row
    lacks. *)
Theorem csv_row_tuple (header row : list string) :
  NoDup header →
  _row_values (DictReader_row header row) header
  = take (length header) (PStr <$> row)
    ++ replicate (length header - length row) PNone.
Proof.
  intros Hnd. apply list_eq. intros j. unfold _row_values.
  rewrite list_lookup_fmap.
  destruct (header !! j) as [col|] eqn:Hj; simpl.
  - rewrite (DictReader_row_lookup header row j col) by done. simpl.
    pose proof (lookup_lt_Some _ _ _ Hj) as Hlt.
    destruct (row !! j) as [r|] eqn:Hr; simpl.
    + pose proof (lookup_lt_Some _ _ _ Hr) as Hlt'.
      rewrite lookup_app_l by (rewrite length_take, length_fmap; lia).
      rewrite lookup_take_lt by done. by rewrite list_lookup_fmap, Hr.
    + apply lookup_ge_None in Hr.
      rewrite lookup_app_r by (rewrite length_take, length_fmap; lia).
      rewrite length_take, length_fmap.
      symmetry. apply lookup_replicate. split; [done | lia].
  - apply lookup_ge_None in Hj. symmetry. apply lookup_ge_None.
    rewrite length_app, length_take, length_fmap, length_replicate. lia.
Qed.

End CsvRows.

Lemma csv_row_tuple_witness :
  _row_values (DictReader_row ["id"; "name"; "age"] ["1"]) ["id"; "name"; "age"]
  = [PStr "1"; PNone; PNone].
Proof.
  rewrite csv_row_tuple; [reflexivity|].
  apply (bool_decide_unpack _). by vm_compute.
Defined.

(** * The bulk loader: edge cases, errors and the row factory *)

Section LoaderEdges.
Context {E : Sqlite}.

Lemma ensure_conn_opened (db : DatabaseLayer) :
  _ensure_conn db = (Ok tt, opened db)
  ∧ ∃ c, conn (opened db) = Some c ∧ the_conn (opened db) = (Ok c, opened db)
         ∧ conn_log c = current_log db.
Proof.
  unfold _ensure_conn, connect, opened, the_conn, current_log.
  destruct (conn db) as [c|] eqn:Hc; simpl; (split; [done|]); eexists;
    rewrite ?Hc; eauto.
Qed.

Lemma new_events_opened (db : DatabaseLayer) : new_events db (opened db) = [].
Proof.
  unfold new_events, opened, current_log.
  destruct (conn db) as [c|] eqn:Hc; simpl; rewrite ?Hc; simpl; [|done].
  apply drop_all.
Qed.

(** X12.  Nothing to load.  An empty file, or a file whose first row is blank,
    gives 0 with inferred columns; a file without header and without
    columns is refused with a [ValueError]; an empty JSON array gives 0.
    In these cases the connection is opened, and nothing is executed or
    committed.  A file that holds only its header gives 0 as well, after a
    commit. *)
Theorem loader_empty_inputs (table : string) (batch_size : Z) (db : DatabaseLayer) :
  (∀ fh, head fh = None ∨ head fh = Some [] →
         insert_from_csv table fh None true batch_size db = (Ok 0%Z, opened db))
  ∧ (∀ fh, insert_from_csv table fh None false batch_size db
           = (Raise (ValueError "columns must be provided when CSV has no header"),
              opened db))
  ∧ (∀ cols, insert_from_json table (PList []) cols batch_size db
             = (Ok 0%Z, opened db))
  ∧ new_events db (opened db) = []
  ∧ (∀ header, header ≠ [] →
       ∃ db', insert_from_csv table [header] None true batch_size db = (Ok 0%Z, db')
              ∧ new_events db db' = [EvCommit]).
Proof.
  destruct (ensure_conn_opened db) as (Hopen & c & Hc & Hthe & Hlog).
  split_and!.
  - intros fh Hhead. unfold insert_from_csv, bind. rewrite Hopen, Hthe. simpl.
    unfold DictReader_fieldnames. by destruct Hhead as [-> | ->].
  - intros fh. unfold insert_from_csv, bind. by rewrite Hopen, Hthe.
  - intros cols. unfold insert_from_json, bind. by rewrite Hopen, Hthe.
  - apply new_events_opened.
  - intros header Hne. unfold insert_from_csv, bind. rewrite Hopen, Hthe. simpl.
    destruct header as [|col header]; [done|].
    unfold csv_insert_rows, bind, flush_rest, conn_commit, log_event, modify, ret.
    simpl. eexists. split; [reflexivity|].
    unfold new_events, current_log at 2. simpl. rewrite Hc. simpl.
    by rewrite <- Hlog, drop_app_length.
Qed.

(** X15.  When the engine rejects the statement, [run_sql] raises the engine's
    error: the statement is not logged and nothing is committed. *)
Theorem run_sql_rejected (sql : string) (params : option (list pyval))
    (fetch : bool) (db : DatabaseLayer) (c : Connection) (msg : string) :
  conn (opened db) = Some c →
  sqlite_execute c sql (bound_params params) = Rejected msg →
  run_sql sql params fetch db = (Raise (SqliteError msg), opened db).
Proof.
  intros Hc Hrej. rewrite run_sql_execute.
  destruct (ensure_conn_opened db) as (Hopen & c' & Hc' & Hthe & _).
  rewrite Hc in Hc'. injection Hc' as <-.
  unfold bind. rewrite Hopen, Hthe.
  unfold cur_execute, bind, lift. by rewrite Hthe, Hrej.
Qed.



(** X17.  A row with fewer values than the cursor has columns makes
    [_row_factory] raise [IndexError]. *)
Theorem row_factory_short_row (description : list string) (row : list pyval) :
  (length row < length description)%nat →
  _row_factory description row = Raise IndexError.
Proof.
  induction description as [|col description IH] using rev_ind; intros Hlen.
  { simpl in Hlen. lia. }
  rewrite length_app in Hlen. simpl in Hlen. rewrite row_factory_snoc.
  destruct (decide (length row < length description)%nat) as [Hlt | Hge].
  - by rewrite IH.
  - destruct (row_factory_mapping description row) as (d & -> & _); [lia|].
    simpl. rewrite (lookup_ge_None_2 row (length description)) by lia. done.
Qed.

(** X18.  Round trip between the two row helpers: the dict [_row_factory] builds
    from a row, read back with [_row_values] along the same distinct column
    names, is the row (cut at the number of columns); its keys are the
    column names. *)
Theorem row_factory_round_trip (description : list string) (row : list pyval) :
  NoDup description →
  (length description ≤ length row)%nat →
  ∃ d, _row_factory description row = Ok d
       ∧ _row_values d description = take (length description) row
       ∧ dom d = list_to_set description.
Proof.
  intros Hnd Hlen.
  destruct (row_factory_mapping description row Hlen) as (d & Hd & Hlast & Hnone).
  assert (∀ (j : nat) col, description !! j = Some col → d !! col = row !! j)
    as Hget.
  { intros j col Hj. apply Hlast; [done|]. intros j' Hlt Hj'.
    pose proof (NoDup_lookup _ _ _ _ Hnd Hj Hj'). lia. }
  exists d. split_and!; [done | |].
  - apply list_eq. intros j. unfold _row_values. rewrite list_lookup_fmap.
    destruct (description !! j) as [col|] eqn:Hj; simpl.
    + pose proof (lookup_lt_Some _ _ _ Hj) as Hlt.
      rewrite (Hget j col Hj), lookup_take_lt by done.
      destruct (lookup_lt_is_Some_2 row j) as [v ->]; [lia | done].
    + apply lookup_ge_None in Hj. symmetry. apply lookup_ge_None.
      rewrite length_take. lia.
  - apply set_eq. intros col. rewrite elem_of_dom, elem_of_list_to_set. split.
    + intros Hsome. destruct (decide (col ∈ description)) as [|Hnot]; [done|].
      rewrite (Hnone col Hnot) in Hsome. by destruct Hsome.
    + intros Hin. apply list_elem_of_lookup in Hin as [j Hj].
      rewrite (Hget j col Hj). apply lookup_lt_is_Some_2.
      apply lookup_lt_Some in Hj. lia.
Qed.

End LoaderEdges.

(** * The bulk loader: what reaches the connection, and when it commits *)

Section LoaderTrace.
Context {E : Sqlite}.









End LoaderTrace.

Section LoaderCommits.
Context {E : Sqlite}.

Lemma bind_ret_l {S A B} (a : A) (k : A → M S B) (s : S) :
  bind (ret a) k s = k a s.
Proof. reflexivity. Qed.



Lemma dict_get_restricted (cols : list string) (items : list (string * pyval))
    (col : string) :
  col ∈ cols →
  dict_get (filter (λ kv, kv.1 ∈ cols) items) col = dict_get items col.
Proof.
  intros Hcol. unfold dict_get. generalize PNone.
  induction items as [|[k v] items IH]; intros acc; [done|].
  rewrite filter_cons. simpl. destruct (decide (k ∈ cols)) as [Hk | Hk]; simpl.
  - apply IH.
  - rewrite (decide_False (P := k = col)) by (by intros ->). apply IH.
Qed.

Lemma json_loop_restricted (sql : string) (cols : list string) (batch_size : Z)
    (elems : list pyval) (batch : list (list pyval)) (inserted : Z)
    (db : DatabaseLayer) :
  json_loop sql cols batch_size (restrict_keys cols <$> elems) batch inserted db
  = json_loop sql cols batch_size elems batch inserted db.
Proof.
  revert batch inserted db.
  induction elems as [|obj rest IH]; intros batch inserted db; [done|].
  destruct obj as [| | | | | |items]; try done. simpl.
  assert (dict_get (filter (λ kv, kv.1 ∈ cols) items) <$> cols
          = dict_get items <$> cols) as ->.
  { apply list_fmap_ext. intros i col Hi. apply dict_get_restricted.
    by apply list_elem_of_lookup_2 in Hi. }
  destruct (_ >=? _)%Z; [|apply IH].
  apply bind_cong. intros n db'. apply IH.
Qed.

(** X14.  A key of a JSON object that is no column never reaches the engine:
    the load runs as it does on the objects without those keys.  With
    inferred columns that holds of every key the first object lacks. *)
Theorem insert_from_json_ignores_other_keys (table : string) (batch_size : Z)
    (db : DatabaseLayer) :
  (∀ cols elems,
     insert_from_json table (PList (restrict_keys cols <$> elems)) (Some cols)
       batch_size db
     = insert_from_json table (PList elems) (Some cols) batch_size db)
  ∧ (∀ first rest,
       insert_from_json table
         (PList (PDict first :: (restrict_keys (dict_keys first) <$> rest))) None
         batch_size db
       = insert_from_json table (PList (PDict first :: rest)) None batch_size db).
Proof.
  split.
  - intros cols elems. unfold insert_from_json.
    apply bind_cong. intros _ db0. apply bind_cong. intros _ db1.
    rewrite !bind_ret_l.
    destruct elems as [|first rest]; [done|].
    change (restrict_keys cols <$> first :: rest)
      with (restrict_keys cols first :: (restrict_keys cols <$> rest)).
    cbv iota beta. rewrite !bind_ret_l. cbv zeta.
    apply bind_ext_l.
    apply (json_loop_restricted _ cols batch_size (first :: rest)).
  - intros first rest. unfold insert_from_json.
    apply bind_cong. intros _ db0. apply bind_cong. intros _ db1.
    rewrite !bind_ret_l. cbv iota beta zeta.
    apply bind_ext_l. simpl.
    destruct (_ >=? _)%Z.
    + apply bind_cong. intros n db'. apply json_loop_restricted.
    + apply json_loop_restricted.
Qed.

End LoaderCommits.

Lemma loader_empty_inputs_witness :
  insert_from_csv "t" [[]; ["1"; "a"]] None true 500 RefSqlite.fresh
  = (Ok 0%Z, opened RefSqlite.fresh).
Proof.
  destruct (loader_empty_inputs "t" 500 RefSqlite.fresh) as (H & _).
  apply H. by right.
Defined.

Lemma run_sql_rejected_witness :
  run_sql (E := StrictSqlite.engine) "INSERT INTO t VALUES (?)" (Some [PNone])
    false RefSqlite.fresh
  = (Raise (SqliteError "NOT NULL constraint failed"), opened RefSqlite.fresh).
Proof.
  apply (run_sql_rejected (E := StrictSqlite.engine) _ _ _ _
           {| conn_path := ":memory:"; conn_log := [] |}); reflexivity.
Defined.


Lemma row_factory_short_row_witness :
  _row_factory ["id"; "name"] [PInt 1] = Raise IndexError.
Proof. apply row_factory_short_row. simpl. lia. Defined.

Lemma row_factory_round_trip_witness :
  ∃ d, _row_factory ["id"; "name"] [PInt 1; PStr "a"; PNone] = Ok d
       ∧ _row_values d ["id"; "name"] = [PInt 1; PStr "a"]
       ∧ dom d = list_to_set ["id"; "name"].
Proof.
  apply (row_factory_round_trip ["id"; "name"] [PInt 1; PStr "a"; PNone]).
  - apply (bool_decide_unpack _). by vm_compute.
  - simpl. lia.
Defined.

(** * The life cycle of the connection *)

Section LifeCycle.




End LifeCycle.


(** * The migration of the store *)

Section MigrateFacts.
Context {B : Bcrypt} {E : Sqlite}.

Lemma scan_false_two_fields (u : string) (lines : list string) :
  user_exists_scan u lines = Ok false →
  Forall (λ line, length (fields line) = 2%nat) lines.
Proof.
  induction lines as [|line rest IH]; intros Hscan; [constructor|].
  simpl in Hscan. unfold fields at 1.
  destruct (Py.split "," (Py.strip line)) as [|a [|b [|c l]]] eqn:Hf;
    try done. simpl in Hscan.
  destruct (decide (a = u)); [done|].
  constructor; [unfold fields; by rewrite Hf | by apply IH].
Qed.

Lemma migrate_loop_two_fields (lines : list string) (s : Script) :
  Forall (λ line, length (fields line) = 2%nat) lines →
  migrate_loop lines s = (Ok tt, s).
Proof.
  induction 1 as [|line rest Hline _ IH]; [done|].
  simpl. unfold fields in Hline.
  by destruct (Py.split "," (Py.strip line)) as [|a [|b [|c [|d l]]]].
Qed.

(** X9.  [migrate_users] executes one INSERT per line of three fields, in the
    order of the file, with the three fields bound; every other line is
    passed over in silence.  It then prints its message.  It does not
    commit. *)
Theorem migrate_users_rows (content : string) (s : Script) :
  let sql := "INSERT OR IGNORE INTO users VALUES (?, ?, ?)" in
  (∀ c params, ∃ cur, sqlite_execute c sql params = Accepted cur) →
  migrate_users content s
  = (Ok tt,
     {| script_conn :=
          {| conn_path := conn_path (script_conn s);
             conn_log := conn_log (script_conn s)
                           ++ (EvExecute sql <$> migrated_rows (Py.file_lines content)) |};
        script_out := script_out s ++ ["Migrated users.txt into users table"] |}).
Proof.
  intros sql Hacc. unfold migrate_users, bind.
  assert (∀ lines s0,
            migrate_loop lines s0
            = (Ok tt,
               {| script_conn :=
                    {| conn_path := conn_path (script_conn s0);
                       conn_log := conn_log (script_conn s0)
                                     ++ (EvExecute sql <$> migrated_rows lines) |};
                  script_out := script_out s0 |})) as ->; [|done].
  subst sql. induction lines as [|line rest IH]; intros [[path log] out].
  { simpl. by rewrite app_nil_r. }
  simpl. unfold fields.
  destruct (Py.split "," (Py.strip line)) as [|a [|b [|c [|d l]]]];
    try (rewrite IH; reflexivity).
  unfold bind, script_execute. simpl.
  destruct (Hacc {| conn_path := path; conn_log := log |} [PStr a; PStr b; PStr c])
    as [cur ->].
  rewrite IH. simpl. by rewrite <- app_assoc.
Qed.

(** X8.  The store of [auth.py] does not migrate.  Wherever [user_exists]
    returns [False], the file has two fields on every line, and
    [migrate_users], which takes the lines of three fields, finds none:
    it asks nothing of the engine and prints that it migrated the file. *)
Theorem migrate_skips_auth_store (u content : string) (w : World) (s : Script) :
  users_file w = Some content →
  (user_exists u w).1 = Ok false →
  migrate_users content s
  = (Ok tt, {| script_conn := script_conn s;
               script_out := script_out s ++ ["Migrated users.txt into users table"] |}).
Proof.
  intros Hfile Hscan. unfold user_exists in Hscan. rewrite Hfile in Hscan.
  simpl in Hscan. apply scan_false_two_fields in Hscan.
  unfold migrate_users, bind. by rewrite migrate_loop_two_fields.
Qed.

End MigrateFacts.

(** The store with alice's record and the line [bob,x,admin]: only the
    second line is migrated. *)
Lemma migrate_users_rows_witness :
  ∃ log,
    migrate_users (default EmptyString (users_file mixed_store))
      {| script_conn := {| conn_path := "intelligence_platform.db"; conn_log := [] |};
         script_out := [] |}
    = (Ok tt,
       {| script_conn := {| conn_path := "intelligence_platform.db"; conn_log := log |};
          script_out := ["Migrated users.txt into users table"] |})
    ∧ log = [EvExecute "INSERT OR IGNORE INTO users VALUES (?, ?, ?)"
               [PStr "bob"; PStr "x"; PStr "admin"]].
Proof.
  eexists. split.
  - apply (migrate_users_rows (E := RefSqlite.engine)). intros c params. by eexists.
  - by vm_compute.
Defined.

Lemma migrate_skips_auth_store_witness :
  let s := {| script_conn := {| conn_path := "intelligence_platform.db";
                                conn_log := [] |};
              script_out := [] |} in
  migrate_users (E := StrictSqlite.engine)
    (default EmptyString (users_file alice_registered)) s
  = (Ok tt, {| script_conn := script_conn s;
               script_out := ["Migrated users.txt into users table"] |}).
Proof.
  intros s.
  apply (migrate_skips_auth_store (E := StrictSqlite.engine)
           "bob" _ alice_registered s); by vm_compute.
Defined.
